(** * palmdev-prep: SDK discovery and GCC specs generation

    A shallow embedding of [tools/palmdev-prep.c].  C strings are modelled
    by [string], holding the bytes before the terminating NUL; a pointer
    into a string is the suffix it designates.  The two global root lists
    and the standard output stream are threaded explicitly through a
    [state]; the services of the host (directory listing, directory tests,
    the directory tree enumerator of utils.c) are the fields of a [host]
    record. *)

From Stdlib Require Import String Ascii List ZArith Lia Bool Arith.
Import ListNotations.

Local Open Scope list_scope.
Local Open Scope string_scope.

(** ** The C library functions the program calls *)

Module C.

Definition NUL : ascii := Ascii.zero.

(** A [string] is the contents of a C string when it holds no NUL byte. *)
Fixpoint no_nul (s : string) : bool :=
  match s with
  | EmptyString => true
  | String c s' => negb (Ascii.eqb c NUL) && no_nul s'
  end.

(** tolower() in the "C" locale, which the program never leaves. *)
Definition tolower (c : ascii) : ascii :=
  let n := nat_of_ascii c in
  if (65 <=? n)%nat && (n <=? 90)%nat then ascii_of_nat (n + 32) else c.

(** isspace() in the "C" locale: space, \t, \n, \v, \f and \r. *)
Definition isspace (c : ascii) : bool :=
  let n := nat_of_ascii c in
  (n =? 32)%nat || ((9 <=? n)%nat && (n <=? 13)%nat).

Definition strlen (s : string) : nat := String.length s.

(** [s + n]: the pointer [s] advanced by [n] bytes. *)
Fixpoint advance (n : nat) (s : string) : string :=
  match n, s with
  | O, _ => s
  | S n', String _ s' => advance n' s'
  | S _, EmptyString => EmptyString
  end.

(** The string left in a buffer after a NUL is stored at offset [n]. *)
Fixpoint cut_at (n : nat) (s : string) : string :=
  match n, s with
  | O, _ => EmptyString
  | S n', String c s' => String c (cut_at n' s')
  | S _, EmptyString => EmptyString
  end.

(** strrchr(): the offset of the last occurrence of [c], if any. *)
Fixpoint strrchr (s : string) (c : ascii) : option nat :=
  match s with
  | EmptyString => None
  | String a s' =>
      match strrchr s' c with
      | Some i => Some (S i)
      | None => if Ascii.eqb a c then Some O else None
      end
  end.

Definition byte (c : ascii) : Z := Z.of_N (N_of_ascii c).

(** strcmp(): the difference of the first two bytes that differ, compared
    as unsigned char; the end of a string reads as the byte 0, and the
    comparison stops at a terminator the two strings share. *)
Fixpoint strcmp (s1 s2 : string) : Z :=
  match s1, s2 with
  | EmptyString, EmptyString => 0
  | EmptyString, String b _ => (0 - byte b)%Z
  | String a _, EmptyString => byte a
  | String a s1', String b s2' =>
      if Ascii.eqb a b
      then if Ascii.eqb a NUL then 0%Z else strcmp s1' s2'
      else (byte a - byte b)%Z
  end.

Fixpoint mem_char (c : ascii) (set : string) : bool :=
  match set with
  | EmptyString => false
  | String a set' => Ascii.eqb c a || mem_char c set'
  end.

(** strspn(): the length of the longest prefix made of bytes of [accept]. *)
Fixpoint strspn (s accept : string) : nat :=
  match s with
  | EmptyString => O
  | String c s' => if mem_char c accept then S (strspn s' accept) else O
  end.

End C.

Import C.

(** ** utils.c: the string store *)

(** Modelled from the spec: [insert_string] of utils.c, whose code is in
    another file of the package.  The string arena hands back a stable
    copy of its argument that it owns for the whole run; the copy is the
    caller's to modify, and holds the same bytes. *)
Definition insert_string (s : string) : string := s.

(** ** Directory names and SDK keys *)

(** [matches prefix str]: [str] starts with [prefix], once folded to lower
    case.  At the end of [str] the loop reads the terminator, which no byte
    of a prefix equals. *)
Fixpoint matches (prefix str : string) : bool :=
  match prefix with
  | EmptyString => true
  | String p prefix' =>
      match str with
      | EmptyString => false
      | String c str' =>
          if Ascii.eqb (tolower c) p then matches prefix' str' else false
      end
  end.

(** The part of [name] that [canonical_key] copies to the string store:
    [name] advanced past "palmos", then past "sdk-", where they match. *)
Definition key_start (name : string) : string :=
  let name := if matches "palmos" name then advance 6 name else name in
  if matches "sdk-" name then advance 4 name else name.

Definition canonical_key (name : string) : string :=
  let key := insert_string (key_start name) in
  match strrchr key "." with
  | Some dot =>
      if (strcmp (advance dot key) ".0" =? 0)%Z then cut_at dot key else key
  | None => key
  end.

(** ** Undefined behaviour

    The C code has places where nothing is defined any more: [vsprintf]
    storing past the end of a local array, a null [root] dereferenced, a
    [key] field read before it was ever assigned.  [Undefined] records that
    the run has reached one of them; it is not an error the program
    reports, and nothing is known about the run from there on. *)

Inductive fault : Type :=
  | buffer_overrun (excess : nat) (* bytes stored past the end of path[] *)
  | null_root
  | unset_key.

Inductive outcome (A : Type) : Type :=
  | Returned (a : A)
  | Undefined (f : fault).

Arguments Returned {A} a.
Arguments Undefined {A} f.

Definition bind {A B : Type} (c : outcome A) (k : A -> outcome B) : outcome B :=
  match c with
  | Returned a => k a
  | Undefined f => Undefined f
  end.

Declare Scope outcome_scope.
Delimit Scope outcome_scope with outcome.
Notation "x <- c ;; k" := (bind c (fun x => k))
  (at level 61, c at next level, right associativity) : outcome_scope.
Notation "' p <- c ;; k" := (bind c (fun x => let p := x in k))
  (at level 61, p pattern, c at next level, right associativity) : outcome_scope.
Local Open Scope outcome_scope.

(** ** Roots *)

Inductive sub_kind : Type := include | lib.

(** [struct root] without its [next] link, which the lists below carry.
    [key] is [None] until the field is assigned: xmalloc() does not
    initialise it. *)
Record root : Type := {
  prefix : string;
  sub_include : option string;
  sub_lib : option string;
  key : option string }.

Definition sub (r : root) (kind : sub_kind) : option string :=
  match kind with
  | include => sub_include r
  | lib => sub_lib r
  end.

Definition set_key (r : root) (k : string) : root :=
  {| prefix := prefix r; sub_include := sub_include r; sub_lib := sub_lib r;
     key := Some k |}.

Record dirent : Type := { d_name : string }.

(** What the program asks of its host: <stdio.h>, <dirent.h>, config.h and
    the directory functions of utils.c.  The file system does not change
    during a run. *)
Record host : Type := {
  FILENAME_MAX : nat;
  PALMDEV_PREFIX : string;
  (** opendir() and the entries readdir() then yields, in order *)
  opendir : string -> option (list dirent);
  (** is_dir() of utils.c, applied to the formatted path *)
  is_dir : string -> bool;
  (** is_dir_dirent() of utils.c, applied to the entry and the formatted path *)
  is_dir_dirent : dirent -> string -> bool;
  (** opentree (DIRS, ...) of utils.c and the paths readtree() then yields *)
  opentree : string -> list string }.

Record state : Type := {
  generic_root_list : list root;
  sdk_root_list : list root;
  stdout : string;
  (** the messages handed to warning() of utils.c, oldest first *)
  warnings : list string }.

Definition initial_state : state :=
  {| generic_root_list := []; sdk_root_list := []; stdout := EmptyString;
     warnings := [] |}.

Definition printf (text : string) (st : state) : state :=
  {| generic_root_list := generic_root_list st;
     sdk_root_list := sdk_root_list st;
     stdout := stdout st ++ text;
     warnings := warnings st |}.

(** Modelled from the spec: [warning] of utils.c, whose code is in another
    file of the package.  It reports the message and the run goes on; the
    state keeps the messages. *)
Definition warning (message : string) (st : state) : state :=
  {| generic_root_list := generic_root_list st;
     sdk_root_list := sdk_root_list st;
     stdout := stdout st;
     warnings := (warnings st ++ [message])%list |}.

Definition BACKSLASH : ascii := ascii_of_nat 92.
Definition TAB : string := String (ascii_of_nat 9) EmptyString.
Definition NL : string := String (ascii_of_nat 10) EmptyString.

Fixpoint spaces (n : nat) : string :=
  match n with
  | O => EmptyString
  | S n' => String " " (spaces n')
  end.

(** The conversion %-Ns of printf: left-justified in a field of width N. *)
Definition left_justified (width : nat) (s : string) : string :=
  s ++ spaces (width - String.length s).

Section Host.

Variable h : host.

(** [make_root path]: [path] stands for the string that [path_format] and
    its arguments produce.  vsprintf() stores it, and its terminator, in
    [char path[FILENAME_MAX]] without looking at its length. *)
Definition make_root (path : string) : outcome root :=
  if (FILENAME_MAX h <=? String.length path)%nat then
    Undefined (buffer_overrun (S (String.length path) - FILENAME_MAX h))
  else
    Returned
      {| prefix := insert_string path;
         sub_include :=
           if is_dir h (path ++ "/include") then Some "include"
           else if is_dir h (path ++ "/Incs") then Some "Incs"
           else None;
         sub_lib :=
           if is_dir h (path ++ "/lib") then Some "lib"
           else if is_dir h (path ++ "/GCC Libraries") then Some "GCC Libraries"
           else None;
         key := None |}.

Fixpoint find (list : list root) (k : option string) : outcome (option root) :=
  match k with
  | None => Returned None
  | Some k' =>
      match list with
      | [] => Returned None
      | r :: next =>
          match key r with
          | None => Undefined unset_key
          | Some rk =>
              if (strcmp k' rk =? 0)%Z then Returned (Some r) else find next k
          end
      end
  end.

(** The text [print_report] sends to standard output. *)
Definition print_report (name : string) (r overriding_root : option root)
    (headers_required : bool) : outcome string :=
  let head := "  " ++ left_justified 13 name ++ TAB in
  match overriding_root with
  | Some o => Returned (head ++ "UNUSED -- hidden by " ++ prefix o ++ NL)
  | None =>
      match r with
      | None => Undefined null_root
      | Some r =>
          if headers_required
             && match sub r include with Some _ => false | None => true end
          then Returned (head ++ "INVALID -- no headers" ++ NL)
          else
            Returned
              (head
               ++ match sub r include with
                  | Some s => "headers in '" ++ s ++ "', "
                  | None => "no headers, "
                  end
               ++ match sub r lib with
                  | Some s => "libraries in '" ++ s ++ "'"
                  | None => "no libraries"
                  end
               ++ NL)
      end
  end.

Definition set_sdk_root_list (l : list root) (st : state) : state :=
  {| generic_root_list := generic_root_list st;
     sdk_root_list := l;
     stdout := stdout st;
     warnings := warnings st |}.

Definition set_generic_root_list (l : list root) (st : state) : state :=
  {| generic_root_list := l;
     sdk_root_list := sdk_root_list st;
     stdout := stdout st;
     warnings := warnings st |}.

(** One turn of the readdir() loop of [analyze_palmdev_tree], on the entry
    [e]; [n] counts the SDK directories seen so far. *)
Definition analyze_dirent (prefix : string) (report : bool) (e : dirent)
    (sn : state * nat) : outcome (state * nat) :=
  let (st, n) := sn in
  if matches "sdk-" (d_name e)
     && is_dir_dirent h e (prefix ++ "/" ++ d_name e)
  then
    let k := canonical_key (d_name e) in
    overriding_sdk <- find (sdk_root_list st) (Some k) ;;
    r <- match overriding_sdk with
         | Some _ => Returned None
         | None => r <- make_root (prefix ++ "/" ++ d_name e) ;; Returned (Some r)
         end ;;
    let n := S n in
    st <- (if report
           then text <- print_report (d_name e) r overriding_sdk true ;;
                Returned (printf text st)
           else Returned st) ;;
    match r with
    | Some r =>
        match sub r include with
        | Some _ =>
            (* root->key = key; root->next = sdk_root_list; sdk_root_list = root *)
            Returned (set_sdk_root_list (set_key r k :: sdk_root_list st) st, n)
        | None => (* free (root) *) Returned (st, n)
        end
    | None => Returned (st, n)
    end
  else Returned (st, n).

Fixpoint analyze_dirents (prefix : string) (report : bool) (es : list dirent)
    (sn : state * nat) : outcome (state * nat) :=
  match es with
  | [] => Returned sn
  | e :: es' =>
      sn <- analyze_dirent prefix report e sn ;;
      analyze_dirents prefix report es' sn
  end.

(** [last_generic_root] always points at the [next] field that ends
    [generic_root_list]: storing through it appends to the list. *)
Definition analyze_palmdev_tree (prefix : string) (report : bool) (st : state)
    : outcome state :=
  match opendir h prefix with
  | Some entries =>
      let st := if report
                then printf ("Checking SDKs in " ++ prefix ++ NL) st else st in
      ' (st, n) <- analyze_dirents prefix report entries (st, O) ;;
      let st := if report && (n =? 0)%nat
                then printf ("  (none)" ++ NL) st else st in
      r <- make_root prefix ;;
      st <- match sub r include, sub r lib with
            | None, None => (* free (root) *) Returned st
            | _, _ =>
                st <- (if report
                       then
                         let st :=
                           printf ("  and material in " ++ prefix
                                   ++ " used regardless of SDK choice" ++ NL) st in
                         text <- print_report "  (common)" (Some r) None false ;;
                         Returned (printf text st)
                       else Returned st) ;;
                r' <- make_root prefix ;;
                Returned
                  (set_generic_root_list (generic_root_list st ++ [r'])%list st)
            end ;;
      Returned (if report then printf NL st else st)
  | None => Returned st
  end.

(** ** Writing the specs *)

Definition FILE : Type := string.

Definition fprintf (f : FILE) (text : string) : FILE := f ++ text.
Definition putc (c : ascii) (f : FILE) : FILE := f ++ String c EmptyString.

Definition spec (kind : sub_kind) : string :=
  match kind with include => "cpp" | lib => "link" end.

(** The array [option] of the source. *)
Definition option_for (kind : sub_kind) : string :=
  match kind with include => "-isystem " | lib => "-L" end.

Fixpoint put_escaped (f : FILE) (s : string) : FILE :=
  match s with
  | EmptyString => f
  | String c s' =>
      let f := if isspace c then putc BACKSLASH f else f in
      put_escaped (putc c f) s'
  end.

Fixpoint write_dirs (f : FILE) (kind : sub_kind) (dirs : list string) : FILE :=
  match dirs with
  | [] => f
  | dir :: dirs' =>
      write_dirs (put_escaped (fprintf f (" " ++ option_for kind)) dir) kind dirs'
  end.

Definition write_dirtree (f : FILE) (r : root) (target : option string)
    (kind : sub_kind) : FILE :=
  match sub r kind with
  | Some s =>
      let target_for_lib :=
        match target with Some _ => "/m68k-palmos-coff" | None => EmptyString end in
      write_dirs f kind (opentree h (prefix r ++ "/" ++ s ++ target_for_lib))
  | None => f
  end.

(** Reading [sdk->key]. *)
Definition key_of (sdk : root) : outcome string :=
  match key sdk with
  | Some k => Returned k
  | None => Undefined unset_key
  end.

Definition write_sdk_spec (f : FILE) (sdk : root) (target : option string)
    (kind : sub_kind) : outcome FILE :=
  k <- key_of sdk ;;
  let f := fprintf f ("*" ++ spec kind ++ "_sdk_" ++ k ++ ":" ++ NL) in
  let f := write_dirtree f sdk target kind in
  Returned (fprintf f (NL ++ NL)).

Fixpoint write_generic_roots (f : FILE) (roots : list root)
    (target : option string) (kind : sub_kind) : FILE :=
  match roots with
  | [] => f
  | r :: next => write_generic_roots (write_dirtree f r target kind) next target kind
  end.

Fixpoint write_sdk_refs (f : FILE) (sdks : list root) (kind : sub_kind)
    : outcome FILE :=
  match sdks with
  | [] => Returned f
  | sdk :: next =>
      k <- key_of sdk ;;
      let f :=
        fprintf f (" %{palmos" ++ k ++ ":%(" ++ spec kind ++ "_sdk_" ++ k ++ ")}") in
      let f :=
        if (strspn k "0123456789" =? strlen k)%nat
        then fprintf f (" %{palmos" ++ k ++ ".0:%(" ++ spec kind ++ "_sdk_" ++ k ++ ")}")
        else f in
      write_sdk_refs f next kind
  end.

Definition write_main_spec (st : state) (f : FILE) (target : option string)
    (default_sdk : option root) (kind : sub_kind) : outcome FILE :=
  let f := fprintf f ("*" ++ spec kind ++ ":" ++ NL ++ "+ %{!palmos-none:") in
  let f := write_generic_roots f (generic_root_list st) target kind in
  f <- write_sdk_refs f (sdk_root_list st) kind ;;
  f <- match default_sdk with
       | Some d =>
           k <- key_of d ;;
           Returned (fprintf f (" %{!palmos*: %(" ++ spec kind ++ "_sdk_" ++ k ++ ")}"))
       | None => Returned f
       end ;;
  Returned (fprintf f ("}" ++ NL ++ NL)).

Fixpoint write_sdk_specs (f : FILE) (sdks : list root) (target : option string)
    : outcome FILE :=
  match sdks with
  | [] => Returned f
  | sdk :: next =>
      f <- write_sdk_spec f sdk None include ;;
      f <- write_sdk_spec f sdk target lib ;;
      write_sdk_specs f next target
  end.

(** [target] is never null in [write_specs]; the headers are written with
    a null target. *)
Definition write_specs (st : state) (f : FILE) (target : string)
    (default_sdk : option root) : outcome FILE :=
  f <- write_sdk_specs f (sdk_root_list st) (Some target) ;;
  f <- write_main_spec st f None default_sdk include ;;
  write_main_spec st f (Some target) default_sdk lib.

(** ** main: scanning and the default SDK *)

(** The loop of [main] over the directories named on the command line. *)
Fixpoint main_scan_args (args : list string) (report : bool) (st : state)
    : outcome state :=
  match args with
  | [] => Returned st
  | a :: args' =>
      st <- (if is_dir h a then analyze_palmdev_tree a report st
             else Returned (warning ("can't open '" ++ a ++ "': @P") st)) ;;
      main_scan_args args' report st
  end.

Definition main_scan (args : list string) (report : bool) (st : state)
    : outcome state :=
  st <- analyze_palmdev_tree (PALMDEV_PREFIX h) report st ;;
  main_scan_args args report st.

(** The loop of [main] that looks for the alphabetically highest key. *)
Fixpoint main_highest (sdks : list root) (default_sdk : root) : outcome root :=
  match sdks with
  | [] => Returned default_sdk
  | sdk :: next =>
      k <- key_of sdk ;;
      dk <- key_of default_sdk ;;
      main_highest next (if (strcmp k dk >? 0)%Z then sdk else default_sdk)
  end.

Definition main_default_sdk (default_sdk_name : option string) (report : bool)
    (st : state) : outcome (option root * state) :=
  ' (default_sdk, st) <-
      match default_sdk_name with
      | Some name =>
          d <- find (sdk_root_list st) (Some (canonical_key name)) ;;
          Returned
            (d,
             match d with
             | None =>
                 warning ("SDK '" ++ name
                          ++ "' not found -- using highest found instead") st
             | Some _ => st
             end)
      | None => Returned (None, st)
      end ;;
  match default_sdk, sdk_root_list st with
  | None, first :: _ =>
      d <- main_highest (sdk_root_list st) first ;;
      k <- key_of d ;;
      Returned
        (Some d,
         if report
         then printf ("When GCC is given no -palmos options, SDK '" ++ k
                      ++ "' will be used by default" ++ NL ++ NL) st
         else st)
  | _, _ => Returned (default_sdk, st)
  end.


End Host.

(** ** Vocabulary of the properties

    The definitions below are not code of the program: they name what the
    properties speak about (the entries a run scans, the roots in the order
    of their discovery, the pieces of the generated text). *)

(** The strings of a list, one after the other. *)
Definition concat_all (l : list string) : string :=
  fold_right append EmptyString l.

Definition keyed (r : root) : bool :=
  match key r with Some _ => true | None => false end.

(** Every root of the list has had its [key] assigned. *)
Definition all_keyed (l : list root) : bool := forallb keyed l.

(** [r] is stored under the key [k]: strcmp() finds them equal. *)
Definition same_key (k : string) (r : root) : bool :=
  match key r with
  | Some rk => (strcmp k rk =? 0)%Z
  | None => false
  end.

Definition stored_under (k : string) (sdks : list root) : list root :=
  filter (same_key k) sdks.

(** [tracks st found]: [sdk_root_list] holds the roots [found], the oldest
    last, each with its key assigned. *)
Definition tracks (st : state) (found : list root) : Prop :=
  sdk_root_list st = rev found /\ all_keyed found = true.

Definition has_headers (r : root) : bool :=
  match sub r include with Some _ => true | None => false end.

Definition has_material (r : root) : bool :=
  match sub r include, sub r lib with None, None => false | _, _ => true end.

(** The head of a line of the report: the format "  %-13s\t". *)
Definition report_head (name : string) : string :=
  "  " ++ left_justified 13 name ++ TAB.

(** The texts of [main] about the default SDK. *)
Definition default_report (k : string) : string :=
  "When GCC is given no -palmos options, SDK '" ++ k
  ++ "' will be used by default" ++ NL ++ NL.

Definition not_found_warning (name : string) : string :=
  "SDK '" ++ name ++ "' not found -- using highest found instead".

Section HostVocabulary.

Variable h : host.

(** The root that [make_root] builds for a path that fits its buffer. *)
Definition root_of (path : string) : root :=
  {| prefix := path;
     sub_include :=
       if is_dir h (path ++ "/include") then Some "include"
       else if is_dir h (path ++ "/Incs") then Some "Incs"
       else None;
     sub_lib :=
       if is_dir h (path ++ "/lib") then Some "lib"
       else if is_dir h (path ++ "/GCC Libraries") then Some "GCC Libraries"
       else None;
     key := None |}.

Definition fits (path : string) : bool :=
  (String.length path <? FILENAME_MAX h)%nat.

(** The path "%s/%s" of an entry [e] of the directory [d]. *)
Definition sdk_path (ent : string * dirent) : string :=
  fst ent ++ "/" ++ d_name (snd ent).

(** The SDK root of an entry, as it is linked into [sdk_root_list]. *)
Definition sdk_root_of (ent : string * dirent) : root :=
  set_key (root_of (sdk_path ent)) (canonical_key (d_name (snd ent))).

(** The entries the readdir() loop looks at: "sdk-" directories. *)
Definition is_sdk_entry (d : string) (e : dirent) : bool :=
  matches "sdk-" (d_name e) && is_dir_dirent h e (d ++ "/" ++ d_name e).

(** The directories a run with the arguments [args] analyses, in order. *)
Definition scanned (args : list string) : list string :=
  PALMDEV_PREFIX h :: filter (is_dir h) args.

Definition entries_of (d : string) : list (string * dirent) :=
  match opendir h d with
  | Some es => map (pair d) (filter (is_sdk_entry d) es)
  | None => []
  end.

(** The SDK entries of a run, in the order the run comes across them. *)
Definition sdk_entries (args : list string) : list (string * dirent) :=
  flat_map entries_of (scanned args).

(** Every path the run formats into [path[]] fits. *)
Definition paths_fit (args : list string) : bool :=
  forallb fits (scanned args) && forallb (fun ent => fits (sdk_path ent)) (sdk_entries args).

(** The SDK roots in the order of their discovery, oldest first: an entry
    adds its root at the end unless a root is already there under its key,
    or it has no headers. *)
Definition discover_entry (found : list root) (ent : string * dirent)
    : list root :=
  if existsb (same_key (canonical_key (d_name (snd ent)))) found then found
  else if has_headers (root_of (sdk_path ent))
       then (found ++ [sdk_root_of ent])%list
       else found.

Definition discover (ents : list (string * dirent)) (found : list root)
    : list root :=
  fold_left discover_entry ents found.

(** The generic root a scanned directory contributes, if any. *)
Definition common_root (d : string) : list root :=
  match opendir h d with
  | Some _ => if has_material (root_of d) then [root_of d] else []
  | None => []
  end.

(** [r] records headers, and the headers directory is there. *)
Definition with_headers (r : root) : bool :=
  has_headers r
  && (is_dir h (prefix r ++ "/include") || is_dir h (prefix r ++ "/Incs")).

(** *** Pieces of the generated text *)

(** A path with a backslash before each of its space characters. *)
Fixpoint escaped (s : string) : string :=
  match s with
  | EmptyString => EmptyString
  | String c s' =>
      (if isspace c then String BACKSLASH (String c EmptyString) else String c EmptyString)
      ++ escaped s'
  end.

(** One option per directory: " -isystem <dir>" or " -L<dir>". *)
Definition dir_options (kind : sub_kind) (dirs : list string) : string :=
  concat_all (map (fun dir => " " ++ option_for kind ++ escaped dir) dirs).

(** The options of the directory tree of a root, for one kind. *)
Definition root_options (target : option string) (kind : sub_kind) (r : root)
    : string :=
  match sub r kind with
  | Some s =>
      dir_options kind
        (opentree h
           (prefix r ++ "/" ++ s
            ++ match target with Some _ => "/m68k-palmos-coff" | None => EmptyString end))
  | None => EmptyString
  end.

End HostVocabulary.

Definition key_text (r : root) : string :=
  match key r with Some k => k | None => EmptyString end.

(** " %{palmosK:%(cpp_sdk_K)}": the block of SDK K, if -palmosK is given. *)
Definition guarded_ref (kind : sub_kind) (k : string) : string :=
  " %{palmos" ++ k ++ ":%(" ++ spec kind ++ "_sdk_" ++ k ++ ")}".

(** The same reference, for the flag -palmosK.0. *)
Definition dot_zero_ref (kind : sub_kind) (k : string) : string :=
  " %{palmos" ++ k ++ ".0:%(" ++ spec kind ++ "_sdk_" ++ k ++ ")}".

(** " %{!palmos*: %(cpp_sdk_K)}": the block of SDK K, if no -palmos flag
    is given. *)
Definition default_ref (kind : sub_kind) (k : string) : string :=
  " %{!palmos*: %(" ++ spec kind ++ "_sdk_" ++ k ++ ")}".

(** The bytes '0' to '9'. *)
Definition is_decimal_digit (c : ascii) : bool :=
  let n := nat_of_ascii c in (48 <=? n)%nat && (n <=? 57)%nat.

(** Every byte of [s] is a decimal digit. *)
Fixpoint all_digits (s : string) : bool :=
  match s with
  | EmptyString => true
  | String c s' => is_decimal_digit c && all_digits s'
  end.

(** What the umbrella block holds for one SDK root. *)
Definition sdk_refs (kind : sub_kind) (r : root) : string :=
  guarded_ref kind (key_text r)
  ++ (if all_digits (key_text r) then dot_zero_ref kind (key_text r) else EmptyString).

Definition umbrella_head (kind : sub_kind) : string :=
  "*" ++ spec kind ++ ":" ++ NL ++ "+ %{!palmos-none:".

Definition umbrella_tail : string := "}" ++ NL ++ NL.

Definition default_text (kind : sub_kind) (default_sdk : option root) : string :=
  match default_sdk with
  | Some d => default_ref kind (key_text d)
  | None => EmptyString
  end.

(** The named block of an SDK root, for one kind. *)
Definition sdk_block (h : host) (target : option string) (kind : sub_kind)
    (r : root) : string :=
  "*" ++ spec kind ++ "_sdk_" ++ key_text r ++ ":" ++ NL
  ++ root_options h target kind r ++ NL ++ NL.


(** The two named blocks of an SDK root: headers, then libraries. *)
Definition sdk_blocks (h : host) (target : string) (r : root) : string :=
  sdk_block h None include r ++ sdk_block h (Some target) lib r.
(** ** Hosts to run the program on

    A host given by tables: the directories that exist, what opendir()
    lists for a path, and what the tree enumerator yields for a path. *)

Fixpoint lookup {A : Type} (p : string) (table : list (string * A)) : option A :=
  match table with
  | [] => None
  | (q, a) :: table' => if String.eqb p q then Some a else lookup p table'
  end.

Fixpoint mem_string (p : string) (l : list string) : bool :=
  match l with
  | [] => false
  | q :: l' => String.eqb p q || mem_string p l'
  end.

Definition table_host (filename_max : nat) (palmdev : string)
    (dirs : list string) (listing : list (string * list string))
    (trees : list (string * list string)) : host :=
  {| FILENAME_MAX := filename_max;
     PALMDEV_PREFIX := palmdev;
     opendir := fun p => option_map (map Build_dirent) (lookup p listing);
     is_dir := fun p => mem_string p dirs;
     is_dir_dirent := fun _ p => mem_string p dirs;
     opentree := fun p => match lookup p trees with Some l => l | None => [] end |}.

(** /opt/palmdev holds sdk-3.5 (headers and libraries) and common headers. *)
Definition host_one_sdk : host :=
  table_host 4096 "/opt/palmdev"
    ["/opt/palmdev"; "/opt/palmdev/sdk-3.5"; "/opt/palmdev/sdk-3.5/include";
     "/opt/palmdev/sdk-3.5/lib"; "/opt/palmdev/include"]
    [("/opt/palmdev", ["."; ".."; "sdk-3.5"; "include"])]
    [("/opt/palmdev/sdk-3.5/include",
      ["/opt/palmdev/sdk-3.5/include"; "/opt/palmdev/sdk-3.5/include/Core UI"]);
     ("/opt/palmdev/sdk-3.5/lib/m68k-palmos-coff",
      ["/opt/palmdev/sdk-3.5/lib/m68k-palmos-coff"]);
     ("/opt/palmdev/include", ["/opt/palmdev/include"])].


(** /a and /b each hold sdk-5; only the one of /b has headers. *)
Definition host_sdk5_first_invalid : host :=
  table_host 4096 "/a"
    ["/a"; "/a/sdk-5"; "/a/sdk-5/lib"; "/b"; "/b/sdk-5"; "/b/sdk-5/include"]
    [("/a", ["."; ".."; "sdk-5"]); ("/b", ["."; ".."; "sdk-5"])]
    [("/b/sdk-5/include", ["/b/sdk-5/include"])].

(** /a and /b each hold sdk-5, both with headers. *)
Definition host_sdk5_twice : host :=
  table_host 4096 "/a"
    ["/a"; "/a/sdk-5"; "/a/sdk-5/include"; "/b"; "/b/sdk-5"; "/b/sdk-5/include"]
    [("/a", ["."; ".."; "sdk-5"]); ("/b", ["."; ".."; "sdk-5"])]
    [("/a/sdk-5/include", ["/a/sdk-5/include"]);
     ("/b/sdk-5/include", ["/b/sdk-5/include"])].

(** /opt/palmdev holds sdk-3 with libraries and no headers. *)
Definition host_sdk3_no_headers : host :=
  table_host 4096 "/opt/palmdev"
    ["/opt/palmdev"; "/opt/palmdev/sdk-3"; "/opt/palmdev/sdk-3/lib"]
    [("/opt/palmdev", ["."; ".."; "sdk-3"])]
    [].

(** A directory 4092 bytes down, which opendir() still accepts, holding
    an sdk-5 whose own path has 4098 bytes. *)
Fixpoint deep (n : nat) : string :=
  match n with
  | O => EmptyString
  | S n' => "/dir" ++ deep n'
  end.

Definition host_deep : host :=
  table_host 4096 (deep 1023)
    [deep 1023; deep 1023 ++ "/sdk-5"; deep 1023 ++ "/sdk-5/include"]
    [(deep 1023, ["."; ".."; "sdk-5"])]
    [].

Definition stored_sdk (path k : string) : root :=
  {| prefix := path; sub_include := Some "include"; sub_lib := Some "lib";
     key := Some k |}.

(** SDKs 3, 10 and 9 in the list. *)
Definition state_3_10_9 : state :=
  {| generic_root_list := [];
     sdk_root_list :=
       [stored_sdk "/opt/palmdev/sdk-3" "3";
        stored_sdk "/opt/palmdev/sdk-10" "10";
        stored_sdk "/opt/palmdev/sdk-9" "9"];
     stdout := EmptyString;
     warnings := [] |}.

(** SDKs 3 and 4 in the list, and the common headers of /opt/palmdev. *)
Definition host_3_4 : host :=
  table_host 4096 "/opt/palmdev"
    ["/opt/palmdev"; "/opt/palmdev/include";
     "/opt/palmdev/sdk-3"; "/opt/palmdev/sdk-3/include";
     "/opt/palmdev/sdk-4"; "/opt/palmdev/sdk-4/include"]
    [("/opt/palmdev", ["."; ".."; "include"; "sdk-4"; "sdk-3"])]
    [("/opt/palmdev/include", ["/opt/palmdev/include"]);
     ("/opt/palmdev/sdk-3/include", ["/opt/palmdev/sdk-3/include"]);
     ("/opt/palmdev/sdk-4/include", ["/opt/palmdev/sdk-4/include"])].

Definition state_3_4 : state :=
  {| generic_root_list :=
       [{| prefix := "/opt/palmdev"; sub_include := Some "include";
           sub_lib := None; key := None |}];
     sdk_root_list :=
       [stored_sdk "/opt/palmdev/sdk-3" "3";
        stored_sdk "/opt/palmdev/sdk-4" "4"];
     stdout := EmptyString;
     warnings := [] |}.

(** ** More vocabulary: letter case and escaping *)

(** [s] with each byte folded to lower case. *)
Fixpoint lowercase (s : string) : string :=
  match s with
  | EmptyString => EmptyString
  | String c s' => String (tolower c) (lowercase s')
  end.

(** The bytes 'A' to 'Z'. *)
Definition is_upper (c : ascii) : bool :=
  let n := nat_of_ascii c in (65 <=? n)%nat && (n <=? 90)%nat.

Fixpoint has_upper (s : string) : bool :=
  match s with
  | EmptyString => false
  | String c s' => is_upper c || has_upper s'
  end.

(** Every white-space byte of [s] comes right after a backslash;
    [after_backslash] tells whether [s] itself does. *)
Fixpoint spaces_guarded (after_backslash : bool) (s : string) : bool :=
  match s with
  | EmptyString => true
  | String c s' =>
      (negb (isspace c) || after_backslash)
      && spaces_guarded (Ascii.eqb c BACKSLASH) s'
  end.

(** Reading back an escaped path: a backslash that stands before a
    white-space byte is dropped. *)
Fixpoint unescaped (s : string) : string :=
  match s with
  | EmptyString => EmptyString
  | String c s' =>
      match s' with
      | String d s'' =>
          if Ascii.eqb c BACKSLASH && isspace d
          then String d (unescaped s'')
          else String c (unescaped s')
      | EmptyString => String c EmptyString
      end
  end.

(** The warning of [main] for an argument that is not a directory. *)
Definition cant_open_warning (a : string) : string :=
  "can't open '" ++ a ++ "': @P".

(** The whole text of the specs: the named blocks of the SDK roots, then
    the umbrella blocks of the headers and of the libraries. *)
Definition umbrella_block (h : host) (st : state) (target : option string)
    (default_sdk : option root) (kind : sub_kind) : string :=
  umbrella_head kind
  ++ concat_all (map (root_options h target kind) (generic_root_list st))
  ++ concat_all (map (sdk_refs kind) (sdk_root_list st))
  ++ default_text kind default_sdk
  ++ umbrella_tail.

Definition specs_text (h : host) (st : state) (target : string)
    (default_sdk : option root) : string :=
  concat_all (map (sdk_blocks h target) (sdk_root_list st))
  ++ umbrella_block h st None default_sdk include
  ++ umbrella_block h st (Some target) default_sdk lib.

(** No two roots of the list are stored under the same key. *)
Definition keys_unique (sdks : list root) : Prop :=
  forall k, (List.length (stored_under k sdks) <= 1)%nat.

(** /opt/palmdev exists and holds nothing. *)
Definition host_empty_dir : host :=
  table_host 4096 "/opt/palmdev"
    ["/opt/palmdev"]
    [("/opt/palmdev", ["."; ".."])]
    [].

(** ** The rest of main: the specs files *)

(** The names config.h gives. *)
Record config : Type := {
  STANDARD_EXEC_PREFIX : string;
  TARGET_ALIAS : string }.

(** The array [target_list], up to its closing null pointer. *)
Definition target_list (c : config) : list string := [TARGET_ALIAS c].

(** What the system answers to stat(), remove() and fopen() on the files
    of the run: the files that exist are kept with their contents, and the
    system may refuse to remove a file, or to open one for writing, with
    an error number. *)
Record system : Type := {
  EACCES : Z;
  (** remove() fails on this path *)
  remove_fails : string -> bool;
  (** fopen (path, "w") fails on this path, with this errno *)
  fopen_errno : string -> option Z }.

Definition files : Type := list (string * string).

Definition delete_file (fname : string) (fs : files) : files :=
  filter (fun entry => negb (String.eqb fname (fst entry))) fs.

Definition put_file (fname content : string) (fs : files) : files :=
  (fname, content) :: delete_file fname fs.

(** The program and its surroundings: the state of the program, the files
    and the messages handed to error() of utils.c, oldest first. *)
Record world : Type := {
  program : state;
  disk : files;
  errors : list string }.

Definition with_program (f : state -> state) (w : world) : world :=
  {| program := f (program w); disk := disk w; errors := errors w |}.

Definition with_disk (f : files -> files) (w : world) : world :=
  {| program := program w; disk := f (disk w); errors := errors w |}.

(** Modelled from the spec: [error] of utils.c, whose code is in another
    file of the package.  It reports the message and the run goes on; the
    world keeps the messages. *)
Definition error (message : string) (w : world) : world :=
  {| program := program w; disk := disk w;
     errors := (errors w ++ [message])%list |}.

Section Files.

Variable h : host.
Variable c : config.
Variable sys : system.

(** [specfilename]: sprintf() stores the name, and its terminator, in the
    static [char fname[FILENAME_MAX]] without looking at its length. *)
Definition specfilename (target : string) : outcome string :=
  let fname := STANDARD_EXEC_PREFIX c ++ "/" ++ target ++ "/specs" in
  if (FILENAME_MAX h <=? String.length fname)%nat then
    Undefined (buffer_overrun (S (String.length fname) - FILENAME_MAX h))
  else Returned fname.

Definition remove_file (verbose : bool) (fname : string) (w : world) : world :=
  match lookup fname (disk w) with
  | None => (* stat() fails: already non-existent *) w
  | Some _ =>
      if remove_fails sys fname
      then with_program (warning ("can't remove '" ++ fname ++ "': @P")) w
      else
        let w := with_disk (delete_file fname) w in
        if verbose
        then with_program (printf ("Removed '" ++ fname ++ "'" ++ NL)) w
        else w
  end.

(** [main] when -r is given: the loop over [target_list]. *)
Fixpoint main_remove (verbose : bool) (targets : list string) (w : world)
    : outcome world :=
  match targets with
  | [] => Returned w
  | target :: targets' =>
      fname <- specfilename target ;;
      main_remove verbose targets' (remove_file verbose fname w)
  end.

(** The loop of [main] that writes the specs files; [message] is the
    variable of that name. *)
Fixpoint main_write (verbose : bool) (default_sdk : option root)
    (targets : list string) (message : string) (w : world)
    : outcome (string * world) :=
  match targets with
  | [] => Returned (message, w)
  | target :: targets' =>
      fname <- specfilename target ;;
      match fopen_errno sys fname with
      | None =>
          text <- write_specs h (program w) EmptyString target default_sdk ;;
          (* fclose (f) *)
          let w := with_disk (put_file fname text) w in
          let w :=
            if verbose
            then with_program
                   (printf ("Wrote " ++ target ++ " specs to '" ++ fname ++ "'"
                            ++ NL)) w
            else w in
          main_write verbose default_sdk targets' message w
      | Some errno =>
          let message :=
            if (errno =? EACCES sys)%Z
            then "Permission to write spec files denied -- try again as root"
            else message in
          main_write verbose default_sdk targets' message
            (error ("can't write to '" ++ fname ++ "': @P") w)
      end
  end.

(** [main] when neither help, version nor -r is asked for: scan, choose
    the default SDK, and dump the specs or write the specs files.  The
    root lists are empty when it starts. *)
Definition main_generate (default_sdk_name dump_target : option string)
    (report verbose : bool) (args : list string) (w : world)
    : outcome world :=
  st <- main_scan h args report (program w) ;;
  ' (default_sdk, st) <- main_default_sdk default_sdk_name report st ;;
  let w := with_program (fun _ => st) w in
  match dump_target with
  | Some target =>
      out <- write_specs h st (stdout st) target default_sdk ;;
      Returned
        (with_program
           (fun st =>
              {| generic_root_list := generic_root_list st;
                 sdk_root_list := sdk_root_list st;
                 stdout := out;
                 warnings := warnings st |}) w)
  | None =>
      let w :=
        if report
        then with_program
               (printf ("Writing SDK details to target specs files..." ++ NL)) w
        else w in
      ' (message, w) <-
        main_write verbose default_sdk (target_list c) "...done" w ;;
      Returned (if report then with_program (printf (message ++ NL)) w else w)
  end.

End Files.

(** A system that refuses nothing, and one that denies every write. *)
Definition system_open : system :=
  {| EACCES := 13; remove_fails := fun _ => false;
     fopen_errno := fun _ => None |}.

Definition system_denied : system :=
  {| EACCES := 13; remove_fails := fun _ => true;
     fopen_errno := fun _ => Some 13%Z |}.

Definition config_m68k : config :=
  {| STANDARD_EXEC_PREFIX := "/usr/lib/gcc-lib"; TARGET_ALIAS := "m68k-palmos" |}.

Definition world_start (fs : files) : world :=
  {| program := initial_state; disk := fs; errors := [] |}.

(** The name "%s/%s/specs" of the specs file of a target. *)
Definition specfile (c : config) (target : string) : string :=
  STANDARD_EXEC_PREFIX c ++ "/" ++ target ++ "/specs".

Definition permission_message : string :=
  "Permission to write spec files denied -- try again as root".
(** * Properties *)

(** ** Strings *)

Section StringFacts.

Lemma append_empty_r (s : string) : s ++ EmptyString = s.
Proof. induction s as [|a s IH]; simpl; congruence. Qed.

Lemma append_assoc (s t u : string) : (s ++ t) ++ u = s ++ (t ++ u).
Proof. induction s as [|a s IH]; simpl; congruence. Qed.

Lemma advance_app (t u : string) : advance (String.length t) (t ++ u) = u.
Proof. induction t as [|a t IH]; simpl; auto. Qed.

Lemma cut_at_app (t u : string) : cut_at (String.length t) (t ++ u) = t.
Proof. induction t as [|a t IH]; simpl; [now destruct u | now rewrite IH]. Qed.

Lemma cut_at_advance (n : nat) (s : string) : cut_at n s ++ advance n s = s.
Proof.
  revert s; induction n as [|n IH]; intros [|a s]; simpl; auto.
  now rewrite IH.
Qed.

Lemma advance_length (n : nat) (s : string) :
  String.length (advance n s) = (String.length s - n)%nat.
Proof. revert s; induction n as [|n IH]; intros [|a s]; simpl; auto. Qed.

Lemma cut_at_length (n : nat) (s : string) :
  (String.length (cut_at n s) <= n)%nat.
Proof.
  revert s; induction n as [|n IH]; intros [|a s]; simpl; auto with arith.
Qed.

Lemma app_length (s t : string) :
  String.length (s ++ t) = (String.length s + String.length t)%nat.
Proof. induction s as [|a s IH]; simpl; auto. Qed.

Lemma no_nul_advance (n : nat) (s : string) :
  no_nul s = true -> no_nul (advance n s) = true.
Proof.
  revert s; induction n as [|n IH]; intros [|a s]; simpl; auto.
  intros H; apply andb_true_iff in H; apply IH, H.
Qed.

Lemma no_nul_cut_at (n : nat) (s : string) :
  no_nul s = true -> no_nul (cut_at n s) = true.
Proof.
  revert s; induction n as [|n IH]; intros [|a s]; simpl; auto.
  intros H; apply andb_true_iff in H; destruct H as [Ha Hs].
  now rewrite Ha, IH.
Qed.

Lemma byte_zero (a : ascii) : byte a = 0%Z -> a = NUL.
Proof.
  unfold byte; intros H.
  assert (E : N_of_ascii a = 0%N) by lia.
  rewrite <- (ascii_N_embedding a), E; reflexivity.
Qed.

Lemma byte_inj (a b : ascii) : byte a = byte b -> a = b.
Proof.
  unfold byte; intros H.
  rewrite <- (ascii_N_embedding a), <- (ascii_N_embedding b).
  f_equal; lia.
Qed.

Lemma strcmp_refl (s : string) : strcmp s s = 0%Z.
Proof.
  induction s as [|a s IH]; simpl; auto.
  rewrite Ascii.eqb_refl. now destruct (Ascii.eqb a NUL).
Qed.

Lemma byte_nonneg (a : ascii) : (0 <= byte a)%Z.
Proof. unfold byte; lia. Qed.

Lemma byte_NUL : byte NUL = 0%Z.
Proof. reflexivity. Qed.

(** Swapping the arguments of strcmp() changes the sign of its answer. *)
Lemma strcmp_swap (s t : string) : strcmp t s = (- strcmp s t)%Z.
Proof.
  revert t; induction s as [|a s IH]; intros [|b t]; simpl; try lia.
  rewrite (Ascii.eqb_sym b a).
  destruct (Ascii.eqb_spec a b) as [->|Hab]; [|lia].
  destruct (Ascii.eqb b NUL); [reflexivity | apply IH].
Qed.

(** strcmp() orders strings: "not above" is transitive. *)
Lemma strcmp_le_trans (s t u : string) :
  (strcmp s t <= 0)%Z -> (strcmp t u <= 0)%Z -> (strcmp s u <= 0)%Z.
Proof.
  assert (Hne : forall x y : ascii, x <> y -> byte x <> byte y)
    by (intros x y Hxy E; apply Hxy, byte_inj, E).
  assert (Hz : forall x : ascii, x <> NUL -> byte x <> 0%Z)
    by (intros x Hx E; apply Hx, byte_zero, E).
  pose proof byte_NUL as H0.
  revert t u; induction s as [|a s IH]; intros [|b t] [|c u]; simpl;
    try (pose proof (byte_nonneg a)); try (pose proof (byte_nonneg b));
    try (pose proof (byte_nonneg c)); try lia.
  - destruct (Ascii.eqb_spec a c) as [->|Hac]; [|lia].
    destruct (Ascii.eqb_spec c NUL) as [->|Hc]; [lia|].
    intros Hc0 _. apply Hz in Hc. lia.
  - destruct (Ascii.eqb_spec a b) as [->|Hab].
    + destruct (Ascii.eqb_spec b NUL) as [->|Hb]; [lia|].
      intros _ Hb0. apply Hz in Hb. lia.
    + intros Hx Hy. apply Hne in Hab. lia.
  - destruct (Ascii.eqb_spec a b) as [->|Hab];
      destruct (Ascii.eqb_spec b c) as [->|Hbc].
    + destruct (Ascii.eqb c NUL); [lia | apply IH].
    + destruct (Ascii.eqb b NUL); intros _ Hc; exact Hc.
    + destruct (Ascii.eqb_spec a c) as [->|Hac]; [contradiction|].
      destruct (Ascii.eqb c NUL); intros Ha _; exact Ha.
    + intros Hx Hy.
      destruct (Ascii.eqb_spec a c) as [->|Hac].
      * exfalso. apply Hne in Hab. lia.
      * lia.
Qed.

Lemma strcmp_lt_le_trans (s t u : string) :
  (strcmp s t < 0)%Z -> (strcmp t u <= 0)%Z -> (strcmp s u < 0)%Z.
Proof.
  intros H1 H2.
  destruct (Z_lt_le_dec (strcmp s u) 0) as [|H3]; auto.
  exfalso.
  assert (H4 : (strcmp u s <= 0)%Z) by (rewrite strcmp_swap; lia).
  pose proof (strcmp_le_trans _ _ _ H2 H4) as H5.
  rewrite strcmp_swap in H5; lia.
Qed.

Lemma strcmp_le_lt_trans (s t u : string) :
  (strcmp s t <= 0)%Z -> (strcmp t u < 0)%Z -> (strcmp s u < 0)%Z.
Proof.
  intros H1 H2.
  destruct (Z_lt_le_dec (strcmp s u) 0) as [|H3]; auto.
  exfalso.
  assert (H4 : (strcmp u s <= 0)%Z) by (rewrite strcmp_swap; lia).
  pose proof (strcmp_le_trans _ _ _ H4 H1) as H5.
  rewrite strcmp_swap in H5; lia.
Qed.

(** On C strings the sign of strcmp() is the lexicographic order of the
    bytes, as [String.compare] defines it. *)
Lemma strcmp_lexicographic (s t : string) :
  no_nul s = true -> no_nul t = true ->
  (strcmp s t ?= 0)%Z = String.compare s t.
Proof.
  revert t; induction s as [|a s IH]; intros [|b t]; simpl; auto.
  - intros _ H; apply andb_true_iff in H; destruct H as [Hb _].
    apply negb_true_iff, Ascii.eqb_neq in Hb.
    pose proof (byte_nonneg b).
    assert (byte b <> 0%Z) by (intros E; apply Hb, byte_zero, E).
    apply Z.compare_lt_iff; lia.
  - intros H _; apply andb_true_iff in H; destruct H as [Ha _].
    apply negb_true_iff, Ascii.eqb_neq in Ha.
    pose proof (byte_nonneg a).
    assert (byte a <> 0%Z) by (intros E; apply Ha, byte_zero, E).
    apply Z.compare_gt_iff; lia.
  - intros Hs Ht; apply andb_true_iff in Hs, Ht.
    destruct Hs as [Ha Hs], Ht as [Hb Ht].
    unfold Ascii.compare.
    destruct (Ascii.eqb_spec a b) as [->|Hab].
    + apply negb_true_iff in Hb; rewrite Hb, N.compare_refl.
      apply IH; assumption.
    + assert (Hn : N_of_ascii a <> N_of_ascii b).
      { intros E; apply Hab.
        rewrite <- (ascii_N_embedding a), <- (ascii_N_embedding b).
        now f_equal. }
      unfold byte.
      destruct (N.compare_spec (N_of_ascii a) (N_of_ascii b)) as [E|L|G];
        [contradiction | apply Z.compare_lt_iff; lia
         | apply Z.compare_gt_iff; lia].
Qed.

(** Two strings are the same key when strcmp() answers 0. *)
Lemma strcmp_zero_sym (s t : string) : strcmp s t = 0%Z -> strcmp t s = 0%Z.
Proof. intros H; rewrite strcmp_swap, H; reflexivity. Qed.

Lemma strcmp_zero_trans (s t u : string) :
  strcmp s t = 0%Z -> strcmp t u = 0%Z -> strcmp s u = 0%Z.
Proof.
  intros H1 H2.
  assert (A : (strcmp s u <= 0)%Z) by (apply (strcmp_le_trans s t u); lia).
  assert (B : (strcmp u s <= 0)%Z).
  { apply (strcmp_le_trans u t s); rewrite strcmp_swap; lia. }
  rewrite strcmp_swap in B; lia.
Qed.

(** On C strings, strcmp() answers 0 for equal strings only. *)
Lemma strcmp_eq (s t : string) :
  no_nul s = true -> no_nul t = true -> strcmp s t = 0%Z -> s = t.
Proof.
  revert t; induction s as [|a s IH]; intros [|b t]; simpl; auto.
  - intros _ H E. assert (E' : byte b = 0%Z) by lia.
    apply byte_zero in E'; subst b; discriminate.
  - intros H _ E. apply byte_zero in E; subst a; discriminate.
  - intros Hs Ht. apply andb_true_iff in Hs, Ht.
    destruct (Ascii.eqb a b) eqn:Eab.
    + apply Ascii.eqb_eq in Eab; subst b.
      destruct Hs as [Ha Hs]. apply negb_true_iff in Ha. rewrite Ha.
      intros E. f_equal; apply IH; tauto.
    + intros E. assert (E' : byte a = byte b) by lia.
      apply byte_inj in E'; subst b. now rewrite Ascii.eqb_refl in Eab.
Qed.

Lemma strrchr_dot_zero (t : string) :
  strrchr (t ++ ".0") "." = Some (String.length t).
Proof. induction t as [|a t IH]; simpl; [reflexivity | now rewrite IH]. Qed.

Lemma matches_length (p s : string) :
  matches p s = true -> (String.length p <= String.length s)%nat.
Proof.
  revert s; induction p as [|a p IH]; intros [|c s]; simpl;
    auto with arith; try discriminate.
  destruct (Ascii.eqb (tolower c) a); [|discriminate].
  intros H; apply IH in H; lia.
Qed.

Lemma key_start_length (name : string) :
  (String.length (key_start name) <= String.length name)%nat.
Proof.
  unfold key_start.
  destruct (matches "palmos" name);
    match goal with |- context [matches "sdk-" ?x] =>
      destruct (matches "sdk-" x) end;
    rewrite ?advance_length; lia.
Qed.

Lemma key_start_fixed (name : string) :
  key_start name = name <->
  matches "palmos" name = false /\ matches "sdk-" name = false.
Proof.
  unfold key_start; split.
  - intros E.
    destruct (matches "palmos" name) eqn:Ep.
    + exfalso. apply matches_length in Ep. simpl in Ep.
      apply (f_equal String.length) in E.
      destruct (matches "sdk-" (advance 6 name));
        rewrite ?advance_length in E; lia.
    + destruct (matches "sdk-" name) eqn:Es; auto.
      exfalso. apply matches_length in Es. simpl in Es.
      apply (f_equal String.length) in E.
      rewrite advance_length in E; lia.
  - intros [Ep Es]. now rewrite Ep, Es.
Qed.

Lemma no_nul_key_start (name : string) :
  no_nul name = true -> no_nul (key_start name) = true.
Proof.
  intros H; unfold key_start.
  destruct (matches "palmos" name);
    match goal with |- context [matches "sdk-" ?x] =>
      destruct (matches "sdk-" x) end;
    auto using no_nul_advance.
Qed.

(** What lines 59-61 of [canonical_key] do to the interned string. *)
Lemma canonical_key_suffix (name t : string) :
  key_start name = t ++ ".0" -> canonical_key name = t.
Proof.
  intros E; unfold canonical_key, insert_string.
  rewrite E, strrchr_dot_zero, advance_app, cut_at_app. reflexivity.
Qed.

Lemma canonical_key_no_suffix (name : string) :
  no_nul name = true ->
  (forall t, key_start name <> t ++ ".0") ->
  canonical_key name = key_start name.
Proof.
  intros Hc Hn; unfold canonical_key, insert_string.
  destruct (strrchr (key_start name) ".") as [dot|] eqn:Ed; auto.
  destruct (strcmp (advance dot (key_start name)) ".0" =? 0)%Z eqn:Ec; auto.
  exfalso. apply Z.eqb_eq in Ec. apply strcmp_eq in Ec; auto.
  - apply (Hn (cut_at dot (key_start name))).
    rewrite <- Ec. symmetry; apply cut_at_advance.
  - apply no_nul_advance, no_nul_key_start, Hc.
Qed.

Lemma no_nul_canonical_key (name : string) :
  no_nul name = true -> no_nul (canonical_key name) = true.
Proof.
  intros H; unfold canonical_key, insert_string.
  destruct (strrchr (key_start name) ".") as [dot|];
    [destruct (strcmp _ _ =? 0)%Z|];
    auto using no_nul_cut_at, no_nul_key_start.
Qed.

Lemma canonical_key_length (name : string) :
  (String.length (canonical_key name) <= String.length (key_start name))%nat.
Proof.
  unfold canonical_key, insert_string.
  destruct (strrchr (key_start name) ".") as [dot|] eqn:Ed; auto.
  destruct (strcmp _ _ =? 0)%Z; auto.
  rewrite <- (cut_at_advance dot (key_start name)) at 2.
  rewrite app_length; lia.
Qed.

End StringFacts.

(** ** Scanning *)

Section Scanning.

Variable h : host.

Lemma make_root_fits (path : string) :
  fits h path = true -> make_root h path = Returned (root_of h path).
Proof.
  unfold fits, make_root; intros H.
  apply Nat.ltb_lt in H.
  destruct (Nat.leb_spec (FILENAME_MAX h) (String.length path)); [lia|].
  reflexivity.
Qed.

Lemma make_root_overrun (path : string) :
  fits h path = false ->
  make_root h path =
  Undefined (buffer_overrun (S (String.length path) - FILENAME_MAX h)).
Proof.
  unfold fits, make_root; intros H.
  apply Nat.ltb_ge in H.
  destruct (Nat.leb_spec (FILENAME_MAX h) (String.length path)); [|lia].
  reflexivity.
Qed.

(** On a list whose keys are all assigned, [find] is the search for the
    first root stored under the key. *)
Lemma find_keyed (l : list root) (k : string) :
  all_keyed l = true ->
  find l (Some k) = Returned (List.find (same_key k) l).
Proof.
  induction l as [|r l IH]; simpl; auto.
  intros H; apply andb_true_iff in H; destruct H as [Hr Hl].
  unfold keyed in Hr; unfold same_key.
  destruct (key r) as [rk|]; [|discriminate].
  destruct (strcmp k rk =? 0)%Z; auto.
Qed.

Lemma find_stored (l : list root) (k : string) (r : root) :
  find l (Some k) = Returned (Some r) -> In r l /\ same_key k r = true.
Proof.
  induction l as [|a l IH]; simpl; [discriminate|].
  unfold same_key at 1.
  destruct (key a) as [ak|] eqn:Ea; [|discriminate].
  destruct (strcmp k ak =? 0)%Z eqn:Ec.
  - intros E; injection E as <-. split; auto.
    unfold same_key; now rewrite Ea.
  - intros E; apply IH in E; tauto.
Qed.

Lemma find_some_existsb (l : list root) (k : string) :
  List.find (same_key k) l = None <-> existsb (same_key k) l = false.
Proof.
  induction l as [|a l IH]; simpl; [tauto|].
  destruct (same_key k a); simpl; [split; discriminate | exact IH].
Qed.

(** *** One turn of the readdir() loop *)

Lemma analyze_dirent_other (d : string) (report : bool) (e : dirent)
    (st : state) (n : nat) :
  is_sdk_entry h d e = false ->
  analyze_dirent h d report e (st, n) = Returned (st, n).
Proof.
  unfold is_sdk_entry, analyze_dirent; intros E; now rewrite E.
Qed.

Lemma analyze_dirent_overridden (d : string) (report : bool) (e : dirent)
    (st : state) (n : nat) (o : root) :
  is_sdk_entry h d e = true ->
  find (sdk_root_list st) (Some (canonical_key (d_name e))) = Returned (Some o) ->
  analyze_dirent h d report e (st, n) =
  Returned
    (if report
     then printf (report_head (d_name e) ++ "UNUSED -- hidden by "
                  ++ prefix o ++ NL) st
     else st, S n).
Proof.
  unfold is_sdk_entry, analyze_dirent; intros E F.
  rewrite E, F; cbn [bind]. now destruct report.
Qed.

Lemma analyze_dirent_invalid (d : string) (report : bool) (e : dirent)
    (st : state) (n : nat) :
  is_sdk_entry h d e = true ->
  find (sdk_root_list st) (Some (canonical_key (d_name e))) = Returned None ->
  fits h (sdk_path (d, e)) = true ->
  has_headers (root_of h (sdk_path (d, e))) = false ->
  analyze_dirent h d report e (st, n) =
  Returned
    (if report
     then printf (report_head (d_name e) ++ "INVALID -- no headers" ++ NL) st
     else st, S n).
Proof.
  unfold is_sdk_entry, analyze_dirent, has_headers, sdk_path; simpl fst; simpl snd.
  intros E F P Hh.
  rewrite E, F; cbn [bind].
  rewrite (make_root_fits _ P); cbn [bind].
  unfold print_report.
  destruct (sub (root_of h (d ++ "/" ++ d_name e)) include); [discriminate|].
  now destruct report.
Qed.

Lemma analyze_dirent_inserted (d : string) (report : bool) (e : dirent)
    (st : state) (n : nat) :
  is_sdk_entry h d e = true ->
  find (sdk_root_list st) (Some (canonical_key (d_name e))) = Returned None ->
  fits h (sdk_path (d, e)) = true ->
  has_headers (root_of h (sdk_path (d, e))) = true ->
  exists text,
    analyze_dirent h d report e (st, n) =
    Returned
      (set_sdk_root_list (sdk_root_of h (d, e) :: sdk_root_list st)
         (if report then printf text st else st), S n).
Proof.
  unfold is_sdk_entry, analyze_dirent, has_headers, sdk_root_of, sdk_path;
    simpl fst; simpl snd.
  intros E F P Hh.
  rewrite E, F; cbn [bind].
  rewrite (make_root_fits _ P); cbn [bind].
  unfold print_report.
  destruct (sub (root_of h (d ++ "/" ++ d_name e)) include) eqn:Es;
    [|discriminate].
  rewrite andb_false_r.
  eexists. destruct report; cbn [bind]; reflexivity.
Qed.

(** *** The run as a discovery of roots *)

Lemma all_keyed_rev (l : list root) : all_keyed (rev l) = all_keyed l.
Proof.
  unfold all_keyed; induction l as [|a l IH]; simpl; auto.
  rewrite forallb_app, IH; simpl. now rewrite andb_true_r, andb_comm.
Qed.

Lemma existsb_rev (f : root -> bool) (l : list root) :
  existsb f (rev l) = existsb f l.
Proof.
  induction l as [|a l IH]; simpl; auto.
  rewrite existsb_app, IH; simpl. now rewrite orb_false_r, orb_comm.
Qed.

Lemma tracks_initial : tracks initial_state [].
Proof. split; reflexivity. Qed.

Lemma tracks_printf (text : string) (st : state) (found : list root) :
  tracks st found -> tracks (printf text st) found.
Proof. intros H; exact H. Qed.

Lemma analyze_dirent_discovers (d : string) (report : bool) (e : dirent)
    (st : state) (n : nat) (found : list root) :
  tracks st found ->
  is_sdk_entry h d e = true ->
  fits h (sdk_path (d, e)) = true ->
  exists st' n',
    analyze_dirent h d report e (st, n) = Returned (st', n') /\
    generic_root_list st' = generic_root_list st /\
    warnings st' = warnings st /\
    tracks st' (discover_entry h found (d, e)).
Proof.
  intros [Hl Hk] E P.
  assert (F : find (sdk_root_list st) (Some (canonical_key (d_name e))) =
              Returned (List.find (same_key (canonical_key (d_name e)))
                          (sdk_root_list st))).
  { apply find_keyed. rewrite Hl, all_keyed_rev; exact Hk. }
  unfold discover_entry; simpl snd.
  destruct (List.find _ (sdk_root_list st)) as [o|] eqn:Ef.
  - rewrite (analyze_dirent_overridden d report e st n o E F).
    apply find_some in Ef; destruct Ef as [Hin Ho].
    assert (X : existsb (same_key (canonical_key (d_name e))) found = true).
    { rewrite <- existsb_rev, <- Hl. apply existsb_exists; eauto. }
    rewrite X. do 2 eexists; split; [reflexivity|].
    destruct report; repeat split; auto.
  - assert (X : existsb (same_key (canonical_key (d_name e))) found = false).
    { rewrite <- existsb_rev, <- Hl. apply find_some_existsb, Ef. }
    rewrite X.
    destruct (has_headers (root_of h (sdk_path (d, e)))) eqn:Hh.
    + destruct (analyze_dirent_inserted d report e st n E F P Hh) as [text Ha].
      rewrite Ha. do 2 eexists; split; [reflexivity|].
      destruct report; simpl; repeat split; auto;
        try (rewrite rev_app_distr, Hl; reflexivity);
        unfold all_keyed; rewrite forallb_app; fold (all_keyed found);
        rewrite Hk; reflexivity.
    + rewrite (analyze_dirent_invalid d report e st n E F P Hh).
      do 2 eexists; split; [reflexivity|].
      destruct report; repeat split; auto.
Qed.

Lemma analyze_dirents_discovers (d : string) (report : bool)
    (es : list dirent) :
  forall (st : state) (n : nat) (found : list root),
  tracks st found ->
  forallb (fun ent => fits h (sdk_path ent))
    (map (pair d) (filter (is_sdk_entry h d) es)) = true ->
  exists st' n',
    analyze_dirents h d report es (st, n) = Returned (st', n') /\
    generic_root_list st' = generic_root_list st /\
    warnings st' = warnings st /\
    tracks st' (discover h (map (pair d) (filter (is_sdk_entry h d) es)) found).
Proof.
  induction es as [|e es IH]; intros st n found T P;
    cbn [analyze_dirents filter] in P |- *.
  - exists st, n; auto.
  - destruct (is_sdk_entry h d e) eqn:E.
    + cbn [map forallb] in P; apply andb_true_iff in P; destruct P as [Pe P].
      destruct (analyze_dirent_discovers d report e st n found T E Pe)
        as (st1 & n1 & Ha & Hg & Hw & T1).
      rewrite Ha; cbn [bind].
      destruct (IH st1 n1 _ T1 P) as (st2 & n2 & Hb & Hg2 & Hw2 & T2).
      exists st2, n2; repeat split; try apply T2; auto; congruence.
    + rewrite (analyze_dirent_other d report e st n E); cbn [bind].
      apply IH; auto.
Qed.

Lemma print_report_common (r : root) :
  exists text, print_report "  (common)" (Some r) None false = Returned text.
Proof. unfold print_report; simpl andb; eexists; reflexivity. Qed.

Lemma analyze_palmdev_tree_discovers (d : string) (report : bool)
    (st : state) (found : list root) :
  tracks st found ->
  fits h d = true ->
  forallb (fun ent => fits h (sdk_path ent)) (entries_of h d) = true ->
  exists st',
    analyze_palmdev_tree h d report st = Returned st' /\
    generic_root_list st' = (generic_root_list st ++ common_root h d)%list /\
    tracks st' (discover h (entries_of h d) found).
Proof.
  intros T Pd P.
  unfold analyze_palmdev_tree, entries_of, common_root in *.
  destruct (opendir h d) as [es|].
  - set (st0 := if report then printf _ st else st).
    assert (T0 : tracks st0 found) by (subst st0; now destruct report).
    assert (G0 : generic_root_list st0 = generic_root_list st)
      by (subst st0; now destruct report).
    destruct (analyze_dirents_discovers d report es st0 O found T0 P)
      as (st1 & n1 & Ha & Hg & _ & T1).
    rewrite Ha; cbn [bind].
    set (st2 := if report && (n1 =? 0)%nat then printf _ st1 else st1).
    assert (T2 : tracks st2 (discover h (map (pair d)
                                (filter (is_sdk_entry h d) es)) found))
      by (subst st2; now destruct (report && (n1 =? 0)%nat)).
    assert (G2 : generic_root_list st2 = generic_root_list st)
      by (subst st2; destruct (report && (n1 =? 0)%nat); simpl; congruence).
    clearbody st2 st0.
    rewrite (make_root_fits d Pd); cbn [bind].
    unfold has_material.
    destruct (print_report_common (root_of h d)) as [text Ht].
    destruct (sub (root_of h d) include) as [s|] eqn:Ei;
      [|destruct (sub (root_of h d) lib) as [s|] eqn:El].
    3: { cbn [bind]. eexists; split; [reflexivity|].
         rewrite app_nil_r. destruct report; simpl; auto. }
    all: destruct report; cbn [bind]; rewrite ?Ht; cbn [bind];
      eexists; (split; [reflexivity|]); simpl; rewrite G2; split; auto.
  - exists st; rewrite app_nil_r; auto.
Qed.

Lemma main_scan_args_discovers (report : bool) (args : list string) :
  forall (st : state) (found : list root),
  tracks st found ->
  forallb (fits h) (filter (is_dir h) args) = true ->
  forallb (fun ent => fits h (sdk_path ent))
    (flat_map (entries_of h) (filter (is_dir h) args)) = true ->
  exists st',
    main_scan_args h args report st = Returned st' /\
    generic_root_list st' =
      (generic_root_list st
       ++ flat_map (common_root h) (filter (is_dir h) args))%list /\
    tracks st'
      (discover h (flat_map (entries_of h) (filter (is_dir h) args)) found).
Proof.
  induction args as [|a args IH]; intros st found T Pd P;
    cbn [main_scan_args filter] in Pd, P |- *.
  - exists st; cbn [flat_map]; rewrite app_nil_r; auto.
  - destruct (is_dir h a) eqn:Ea; cbn [flat_map forallb] in Pd, P |- *.
    + apply andb_true_iff in Pd; destruct Pd as [Pa Pd].
      rewrite forallb_app in P; apply andb_true_iff in P; destruct P as [P1 P2].
      destruct (analyze_palmdev_tree_discovers a report st found T Pa P1)
        as (st1 & Ha & Hg & T1).
      rewrite Ha; cbn [bind].
      destruct (IH st1 _ T1 Pd P2) as (st2 & Hb & Hg2 & T2).
      exists st2; split; [exact Hb|]. split.
      * rewrite Hg2, Hg, <- app_assoc; reflexivity.
      * unfold discover in *; rewrite fold_left_app; exact T2.
    + cbn [bind].
      destruct (IH (warning ("can't open '" ++ a ++ "': @P") st) found T Pd P)
        as (st2 & Hb & Hg2 & T2).
      exists st2; auto.
Qed.

(** A run of [main_scan] whose paths fit returns, with the generic roots
    of the scanned directories in scan order and the SDK roots the
    discovery finds, the oldest last. *)
Lemma main_scan_discovers (report : bool) (args : list string)
    (st : state) (found : list root) :
  tracks st found ->
  paths_fit h args = true ->
  exists st',
    main_scan h args report st = Returned st' /\
    generic_root_list st' =
      (generic_root_list st ++ flat_map (common_root h) (scanned h args))%list /\
    tracks st' (discover h (sdk_entries h args) found).
Proof.
  unfold paths_fit, sdk_entries, scanned, main_scan;
    cbn [flat_map forallb].
  intros T P.
  apply andb_true_iff in P; destruct P as [Pd P].
  apply andb_true_iff in Pd; destruct Pd as [Pp Pd].
  rewrite forallb_app in P; apply andb_true_iff in P; destruct P as [P1 P2].
  destruct (analyze_palmdev_tree_discovers _ report st found T Pp P1)
    as (st1 & Ha & Hg & T1).
  rewrite Ha; cbn [bind].
  destruct (main_scan_args_discovers report args st1 _ T1 Pd P2)
    as (st2 & Hb & Hg2 & T2).
  exists st2; split; [exact Hb|]. split.
  - rewrite Hg2, Hg, <- app_assoc; reflexivity.
  - unfold discover in *; rewrite fold_left_app; exact T2.
Qed.

End Scanning.

(** ** What the discovery keeps *)

Section Discovery.

Variable h : host.

Lemma same_key_sdk_root_of (k : string) (ent : string * dirent) :
  same_key k (sdk_root_of h ent) =
  (strcmp k (canonical_key (d_name (snd ent))) =? 0)%Z.
Proof. reflexivity. Qed.

Lemma stored_under_nil_existsb (k : string) (l : list root) :
  stored_under k l = [] -> existsb (same_key k) l = false.
Proof.
  unfold stored_under; induction l as [|a l IH]; simpl; auto.
  destruct (same_key k a); [discriminate | exact IH].
Qed.

(** A key equal to the key of a stored root finds that root too. *)
Lemma same_key_trans (k k' : string) (r : root) :
  strcmp k k' = 0%Z -> same_key k r = true -> same_key k' r = true.
Proof.
  unfold same_key; destruct (key r) as [rk|]; auto.
  intros E H; apply Z.eqb_eq in H; apply Z.eqb_eq.
  apply (strcmp_zero_trans k' k rk); auto using strcmp_zero_sym.
Qed.

(** Entries of another key, or without headers, store nothing under [k]. *)
Lemma discover_nothing_under (k : string) (ents : list (string * dirent)) :
  forall found,
  stored_under k found = [] ->
  (forall ent, In ent ents ->
     strcmp k (canonical_key (d_name (snd ent))) = 0%Z ->
     has_headers (root_of h (sdk_path ent)) = false) ->
  stored_under k (discover h ents found) = [].
Proof.
  induction ents as [|ent ents IH]; intros found Hn Hh; auto.
  unfold discover; cbn [fold_left]; apply IH.
  - unfold discover_entry.
    destruct (existsb _ found); auto.
    destruct (has_headers (root_of h (sdk_path ent))) eqn:Ehh; auto.
    unfold stored_under; rewrite filter_app; fold (stored_under k found).
    rewrite Hn; cbn [filter app]. rewrite same_key_sdk_root_of.
    destruct (Z.eqb_spec (strcmp k (canonical_key (d_name (snd ent)))) 0)
      as [E|]; auto.
    rewrite (Hh ent) in Ehh; [discriminate | now left | exact E].
  - intros ent' Hin; apply Hh; now right.
Qed.

(** Once a root is stored under [k], it stays the only one. *)
Lemma discover_keeps (k : string) (r : root) (ents : list (string * dirent)) :
  forall found,
  stored_under k found = [r] ->
  stored_under k (discover h ents found) = [r].
Proof.
  induction ents as [|ent ents IH]; intros found Hs; auto.
  unfold discover; cbn [fold_left]; apply IH.
  unfold discover_entry.
  destruct (existsb _ found) eqn:Ex; auto.
  destruct (has_headers (root_of h (sdk_path ent))); auto.
  unfold stored_under; rewrite filter_app; fold (stored_under k found).
  rewrite Hs; cbn [filter app]. rewrite same_key_sdk_root_of.
  destruct (Z.eqb_spec (strcmp k (canonical_key (d_name (snd ent)))) 0)
    as [E|]; auto.
  exfalso.
  assert (Hr : In r (stored_under k found)) by (rewrite Hs; now left).
  apply filter_In in Hr; destruct Hr as [Hin Hk].
  assert (X : existsb (same_key (canonical_key (d_name (snd ent)))) found = true).
  { apply existsb_exists; exists r; split; auto.
    apply (same_key_trans k); auto. }
  congruence.
Qed.

Lemma discover_app (ents1 ents2 : list (string * dirent)) (found : list root) :
  discover h (ents1 ++ ents2) found = discover h ents2 (discover h ents1 found).
Proof. apply fold_left_app. Qed.

Lemma discover_cons (ent : string * dirent) (ents : list (string * dirent))
    (found : list root) :
  discover h (ent :: ents) found = discover h ents (discover_entry h found ent).
Proof. reflexivity. Qed.

(** The first entry of a key that has headers is the one stored. *)
Lemma discover_first_with_headers (before after : list (string * dirent))
    (ent : string * dirent) :
  has_headers (root_of h (sdk_path ent)) = true ->
  (forall ent', In ent' before ->
     strcmp (canonical_key (d_name (snd ent)))
            (canonical_key (d_name (snd ent'))) = 0%Z ->
     has_headers (root_of h (sdk_path ent')) = false) ->
  stored_under (canonical_key (d_name (snd ent)))
    (discover h (before ++ ent :: after) []) = [sdk_root_of h ent].
Proof.
  intros Hh Hb.
  rewrite discover_app, discover_cons.
  apply discover_keeps.
  pose proof (discover_nothing_under _ before [] eq_refl Hb) as Hn.
  unfold discover_entry.
  rewrite (stored_under_nil_existsb _ _ Hn), Hh.
  unfold stored_under; rewrite filter_app.
  fold (stored_under (canonical_key (d_name (snd ent))) (discover h before [])).
  rewrite Hn; cbn [filter app].
  rewrite same_key_sdk_root_of, strcmp_refl; reflexivity.
Qed.

(** Every discovered root has headers, in a directory that exists. *)
Lemma root_of_headers_dir (path : string) :
  has_headers (root_of h path) =
  is_dir h (path ++ "/include") || is_dir h (path ++ "/Incs").
Proof.
  unfold has_headers, root_of; simpl.
  destruct (is_dir h (path ++ "/include")); auto.
  destruct (is_dir h (path ++ "/Incs")); auto.
Qed.

Lemma discover_with_headers (ents : list (string * dirent)) :
  forall found,
  forallb (with_headers h) found = true ->
  forallb (with_headers h) (discover h ents found) = true.
Proof.
  induction ents as [|ent ents IH]; intros found Hf; auto.
  rewrite discover_cons; apply IH.
  unfold discover_entry.
  destruct (existsb _ found); auto.
  destruct (has_headers (root_of h (sdk_path ent))) eqn:Ehh; auto.
  rewrite forallb_app, Hf; cbn [forallb].
  unfold with_headers, sdk_root_of; cbn [prefix set_key root_of].
  rewrite <- root_of_headers_dir, Ehh.
  change (has_headers (set_key (root_of h (sdk_path ent))
                         (canonical_key (d_name (snd ent)))))
    with (has_headers (root_of h (sdk_path ent))).
  rewrite Ehh; reflexivity.
Qed.

(** [List.find] answers the first of the roots stored under the key. *)
Lemma find_stored_under (k : string) (l : list root) :
  List.find (same_key k) l = hd_error (stored_under k l).
Proof.
  unfold stored_under; induction l as [|a l IH]; simpl; auto.
  destruct (same_key k a); auto.
Qed.

(** The text of the specs depends on the two lists only. *)
Lemma write_specs_lists (st1 st : state) (f : FILE) (target : string)
    (default_sdk : option root) :
  generic_root_list st1 = generic_root_list st ->
  sdk_root_list st1 = sdk_root_list st ->
  write_specs h st1 f target default_sdk = write_specs h st f target default_sdk.
Proof.
  intros G S; unfold write_specs, write_main_spec; rewrite G, S; reflexivity.
Qed.

End Discovery.

(** ** Writing *)

Section Writing.

Variable h : host.

Lemma put_escaped_app (s : string) :
  forall f, put_escaped f s = f ++ escaped s.
Proof.
  induction s as [|c s IH]; intros f; cbn [put_escaped escaped].
  - symmetry; apply append_empty_r.
  - rewrite IH; unfold putc.
    destruct (isspace c); rewrite ?append_assoc; reflexivity.
Qed.

Lemma write_dirs_app (kind : sub_kind) (dirs : list string) :
  forall f, write_dirs f kind dirs = f ++ dir_options kind dirs.
Proof.
  unfold dir_options, concat_all.
  induction dirs as [|dir dirs IH]; intros f; cbn [write_dirs map fold_right].
  - symmetry; apply append_empty_r.
  - rewrite IH, put_escaped_app; unfold fprintf.
    rewrite !append_assoc; reflexivity.
Qed.

Lemma write_dirtree_app (f : FILE) (r : root) (target : option string)
    (kind : sub_kind) :
  write_dirtree h f r target kind = f ++ root_options h target kind r.
Proof.
  unfold write_dirtree, root_options.
  destruct (sub r kind); [apply write_dirs_app|].
  symmetry; apply append_empty_r.
Qed.

Lemma write_generic_roots_app (target : option string) (kind : sub_kind)
    (roots : list root) :
  forall f,
  write_generic_roots h f roots target kind =
  f ++ concat_all (map (root_options h target kind) roots).
Proof.
  unfold concat_all.
  induction roots as [|r roots IH]; intros f;
    cbn [write_generic_roots map fold_right].
  - symmetry; apply append_empty_r.
  - rewrite IH, write_dirtree_app, append_assoc; reflexivity.
Qed.

Lemma key_of_keyed (r : root) :
  keyed r = true -> key_of r = Returned (key_text r).
Proof. unfold keyed, key_of, key_text; destruct (key r); [auto | discriminate]. Qed.

Lemma mem_char_digits (c : ascii) :
  mem_char c "0123456789" = is_decimal_digit c.
Proof. destruct c as [[] [] [] [] [] [] [] []]; reflexivity. Qed.

(** The test of [write_main_spec] on a key: strspn() over the digits
    covers the whole key exactly when every byte of it is a digit. *)
Lemma strspn_digits (k : string) :
  (strspn k "0123456789" =? strlen k)%nat = all_digits k.
Proof.
  unfold strlen; induction k as [|c k IH]; cbn [strspn all_digits String.length].
  - reflexivity.
  - rewrite mem_char_digits. destruct (is_decimal_digit c); [exact IH | reflexivity].
Qed.

Lemma write_sdk_refs_app (kind : sub_kind) (sdks : list root) :
  forall f,
  all_keyed sdks = true ->
  write_sdk_refs f sdks kind =
  Returned (f ++ concat_all (map (sdk_refs kind) sdks)).
Proof.
  unfold concat_all.
  induction sdks as [|r sdks IH]; intros f Hk;
    cbn [write_sdk_refs map fold_right].
  - now rewrite append_empty_r.
  - cbn [all_keyed forallb] in Hk. apply andb_true_iff in Hk.
    destruct Hk as [Hr Hk].
    rewrite (key_of_keyed r Hr); cbn [bind].
    rewrite IH by exact Hk. rewrite strspn_digits.
    unfold sdk_refs, guarded_ref, dot_zero_ref, fprintf.
    destruct (all_digits (key_text r));
      rewrite ?append_assoc, ?append_empty_r; reflexivity.
Qed.

Lemma write_main_spec_app (st : state) (f : FILE) (target : option string)
    (default_sdk : option root) (kind : sub_kind) :
  all_keyed (sdk_root_list st) = true ->
  match default_sdk with Some d => keyed d | None => true end = true ->
  write_main_spec h st f target default_sdk kind =
  Returned
    (f ++ umbrella_head kind
     ++ concat_all (map (root_options h target kind) (generic_root_list st))
     ++ concat_all (map (sdk_refs kind) (sdk_root_list st))
     ++ default_text kind default_sdk
     ++ umbrella_tail).
Proof.
  intros Hk Hd; unfold write_main_spec.
  rewrite write_generic_roots_app, write_sdk_refs_app by exact Hk.
  cbn [bind]; unfold fprintf, default_text, umbrella_head, umbrella_tail.
  destruct default_sdk as [d|].
  - rewrite (key_of_keyed d Hd); cbn [bind]; unfold fprintf, default_ref.
    rewrite !append_assoc; reflexivity.
  - cbn [bind]. rewrite !append_assoc; reflexivity.
Qed.

Lemma write_sdk_spec_app (f : FILE) (sdk : root) (target : option string)
    (kind : sub_kind) :
  keyed sdk = true ->
  write_sdk_spec h f sdk target kind =
  Returned (f ++ sdk_block h target kind sdk).
Proof.
  intros Hk; unfold write_sdk_spec.
  rewrite (key_of_keyed sdk Hk); cbn [bind].
  rewrite write_dirtree_app; unfold fprintf, sdk_block.
  rewrite !append_assoc; reflexivity.
Qed.

Lemma write_sdk_specs_app (target : string) (sdks : list root) :
  forall f,
  all_keyed sdks = true ->
  write_sdk_specs h f sdks (Some target) =
  Returned (f ++ concat_all (map (sdk_blocks h target) sdks)).
Proof.
  unfold concat_all.
  induction sdks as [|r sdks IH]; intros f Hk;
    cbn [write_sdk_specs map fold_right].
  - now rewrite append_empty_r.
  - cbn [all_keyed forallb] in Hk. apply andb_true_iff in Hk.
    destruct Hk as [Hr Hk].
    rewrite !(write_sdk_spec_app _ _ _ _ Hr); cbn [bind].
    rewrite (write_sdk_spec_app _ _ _ _ Hr); cbn [bind].
    rewrite IH by exact Hk. unfold sdk_blocks.
    rewrite !append_assoc; reflexivity.
Qed.

End Writing.

(** ** Choosing the default SDK *)

Section DefaultSdk.

(** The loop for the highest key answers the first root, in the order of
    the list, that no root of the list is above. *)
Lemma main_highest_first_greatest (l : list root) :
  forall d0,
  all_keyed l = true -> keyed d0 = true ->
  exists d,
    main_highest l d0 = Returned d /\ keyed d = true /\
    ((d = d0 /\
      forall r, In r l -> (strcmp (key_text r) (key_text d0) <= 0)%Z) \/
     (exists l1 l2,
        l = (l1 ++ d :: l2)%list /\
        (strcmp (key_text d) (key_text d0) > 0)%Z /\
        (forall r, In r l1 -> (strcmp (key_text r) (key_text d) < 0)%Z) /\
        (forall r, In r l2 -> (strcmp (key_text r) (key_text d) <= 0)%Z))).
Proof.
  induction l as [|a l IH]; intros d0 Hl Hd; cbn [main_highest].
  - exists d0; repeat split; auto. left; split; auto. intros r [].
  - cbn [all_keyed forallb] in Hl; apply andb_true_iff in Hl.
    destruct Hl as [Ha Hl].
    rewrite (key_of_keyed a Ha), (key_of_keyed d0 Hd); cbn [bind].
    destruct (Z.gtb_spec (strcmp (key_text a) (key_text d0)) 0) as [Hgt|Hle].
    + destruct (IH a Hl Ha) as (d & Hm & Hkd & [[-> Hall]|(l1 & l2 & -> & Hda & H1 & H2)]).
      * exists a; repeat split; auto. right; exists [], l.
        repeat split; auto; [lia | intros r []].
      * exists d; repeat split; auto. right; exists (a :: l1), l2.
        repeat split; auto.
        -- assert (X : (strcmp (key_text d0) (key_text d) < 0)%Z).
           { apply (strcmp_lt_le_trans _ (key_text a)).
             - rewrite strcmp_swap; lia.
             - assert (Y : (strcmp (key_text a) (key_text d) < 0)%Z)
                 by (rewrite strcmp_swap; lia).
               lia. }
           rewrite strcmp_swap; lia.
        -- intros r [<-|Hr]; [rewrite strcmp_swap; lia | auto].
    + destruct (IH d0 Hl Hd) as (d & Hm & Hkd & [[-> Hall]|(l1 & l2 & -> & Hda & H1 & H2)]).
      * exists d0; repeat split; auto. left; split; auto.
        intros r [<-|Hr]; auto.
      * exists d; repeat split; auto. right; exists (a :: l1), l2.
        repeat split; auto.
        intros r [<-|Hr]; auto.
        apply (strcmp_le_lt_trans _ (key_text d0)); [exact Hle|].
        rewrite strcmp_swap; lia.
Qed.

(** With no SDK requested and a list that is not empty, the default is
    the first root of the list that none is above. *)
Lemma main_default_sdk_automatic (report : bool) (st : state) :
  all_keyed (sdk_root_list st) = true ->
  sdk_root_list st <> [] ->
  exists d l1 l2,
    main_default_sdk None report st =
      Returned (Some d,
                if report then printf (default_report (key_text d)) st else st) /\
    keyed d = true /\
    sdk_root_list st = (l1 ++ d :: l2)%list /\
    (forall r, In r l1 -> (strcmp (key_text r) (key_text d) < 0)%Z) /\
    (forall r, In r l2 -> (strcmp (key_text r) (key_text d) <= 0)%Z).
Proof.
  intros Hk Hne; unfold main_default_sdk; cbn [bind].
  destruct (sdk_root_list st) as [|first rest] eqn:El; [congruence|].
  assert (Hf : keyed first = true).
  { cbn [all_keyed forallb] in Hk; apply andb_true_iff in Hk; tauto. }
  destruct (main_highest_first_greatest (first :: rest) first Hk Hf)
    as (d & Hm & Hkd & Hcase).
  rewrite Hm; cbn [bind]. rewrite (key_of_keyed d Hkd); cbn [bind].
  destruct Hcase as [[-> Hall]|(l1 & l2 & E & Hd & H1 & H2)].
  - exists first, [], rest; repeat split; auto.
    + intros r [].
    + intros r Hr; apply Hall; now right.
  - exists d, l1, l2; repeat split; auto.
Qed.

Lemma main_default_sdk_none (name : option string) (report : bool)
    (st : state) :
  sdk_root_list st = [] ->
  main_default_sdk name report st =
  Returned (None,
            match name with
            | Some nm => warning (not_found_warning nm) st
            | None => st
            end).
Proof.
  intros El; unfold main_default_sdk.
  destruct name as [nm|]; rewrite ?El; cbn [find bind];
    cbn [sdk_root_list warning]; rewrite ?El; reflexivity.
Qed.

Lemma main_default_sdk_not_found (nm : string) (report : bool) (st : state) :
  find (sdk_root_list st) (Some (canonical_key nm)) = Returned None ->
  main_default_sdk (Some nm) report st =
  main_default_sdk None report (warning (not_found_warning nm) st).
Proof.
  intros F; unfold main_default_sdk; rewrite F; reflexivity.
Qed.

Lemma main_default_sdk_found (nm : string) (report : bool) (st : state)
    (d : root) :
  find (sdk_root_list st) (Some (canonical_key nm)) = Returned (Some d) ->
  main_default_sdk (Some nm) report st = Returned (Some d, st).
Proof.
  intros F; unfold main_default_sdk; rewrite F; reflexivity.
Qed.

End DefaultSdk.

(** ** The key canonicaliser *)

Section CanonicalKey.

Example canonical_key_sdk_4_0 : canonical_key "sdk-4.0" = "4".
Proof. reflexivity. Qed.

Example canonical_key_PalmOSSDK_4_0 : canonical_key "PalmOSSDK-4.0" = "4".
Proof. reflexivity. Qed.

Example canonical_key_sdk_4 : canonical_key "sdk-4" = "4".
Proof. reflexivity. Qed.

Example canonical_key_interior_dot_zero : canonical_key "sdk-4.0.1" = "4.0.1".
Proof. reflexivity. Qed.

(** C2, as the claim states it, fails: the last ".0" of "sdk-4.0.0" is a
    trailing ".0" and is cut, so the key is "4.0" and not "4.0.0". *)
Lemma canonical_key_sdk_4_0_0_is_not_4_0_0 :
  canonical_key "sdk-4.0.0" <> "4.0.0".
Proof. vm_compute. discriminate. Qed.

(** C2, amended: [canonical_key] removes exactly one trailing ".0" of the
    interned string, whatever is before it (not recursively: what is left
    may itself end in ".0"), and changes nothing in a string that does not
    end in ".0" (so an interior ".0" stays).  For "sdk-4.0.0" the key is
    "4.0". *)
Theorem canonical_key_cuts_one_trailing_dot_zero (name : string) :
  no_nul name = true ->
  (forall t, key_start name = t ++ ".0" -> canonical_key name = t) /\
  ((forall t, key_start name <> t ++ ".0") ->
   canonical_key name = key_start name).
Proof.
  intros Hc; split.
  - intros t; apply canonical_key_suffix.
  - apply canonical_key_no_suffix, Hc.
Qed.

Lemma canonical_key_cuts_one_trailing_dot_zero_witness :
  no_nul "sdk-4.0.0" = true /\ canonical_key "sdk-4.0.0" = "4.0".
Proof.
  split; [reflexivity|].
  apply (canonical_key_cuts_one_trailing_dot_zero "sdk-4.0.0");
    reflexivity.
Defined.

Lemma key_start_same_length (name : string) :
  String.length (key_start name) = String.length name ->
  key_start name = name.
Proof.
  unfold key_start.
  destruct (matches "palmos" name) eqn:Ep.
  - apply matches_length in Ep; simpl in Ep.
    destruct (matches "sdk-" (advance 6 name));
      rewrite ?advance_length; lia.
  - destruct (matches "sdk-" name) eqn:Es; auto.
    apply matches_length in Es; simpl in Es.
    rewrite advance_length; lia.
Qed.

(** The keys that [canonical_key] leaves alone. *)
Lemma canonical_key_fixed (k : string) :
  no_nul k = true ->
  canonical_key k = k <->
  matches "palmos" k = false /\ matches "sdk-" k = false /\
  (forall t, k <> t ++ ".0").
Proof.
  intros Hc; split.
  - intros E.
    assert (Hs : key_start k = k).
    { apply key_start_same_length.
      pose proof (canonical_key_length k) as H1.
      pose proof (key_start_length k) as H2.
      rewrite E in H1; lia. }
    pose proof (proj1 (key_start_fixed k) Hs) as [Hp Hd].
    repeat split; auto.
    intros t Et.
    assert (Ek : canonical_key k = t)
      by (apply canonical_key_suffix; congruence).
    rewrite E in Ek. rewrite Ek in Et at 1.
    apply (f_equal String.length) in Et.
    rewrite app_length in Et; simpl in Et; lia.
  - intros (Hp & Hd & Hn).
    assert (Hs : key_start k = k) by (apply key_start_fixed; auto).
    rewrite canonical_key_no_suffix; auto.
    rewrite Hs; exact Hn.
Qed.

(** C3, as the claim states it, fails: canonicalising "sdk-4.0.0" gives
    "4.0", and canonicalising that gives "4". *)
Lemma canonical_key_not_idempotent :
  canonical_key (canonical_key "sdk-4.0.0") <> canonical_key "sdk-4.0.0".
Proof. vm_compute. discriminate. Qed.

(** C3, amended: canonicalising a second time changes nothing exactly when
    the canonical key of [d] does not start, in any letter case, with
    "palmos" or "sdk-" and does not end in ".0". *)
Theorem canonical_key_idempotent_iff (d : string) :
  no_nul d = true ->
  canonical_key (canonical_key d) = canonical_key d <->
  matches "palmos" (canonical_key d) = false /\
  matches "sdk-" (canonical_key d) = false /\
  (forall t, canonical_key d <> t ++ ".0").
Proof.
  intros Hc. apply canonical_key_fixed, no_nul_canonical_key, Hc.
Qed.

Lemma canonical_key_idempotent_iff_witness :
  no_nul "PalmOSsdk-4.0" = true /\
  canonical_key (canonical_key "PalmOSsdk-4.0") = canonical_key "PalmOSsdk-4.0".
Proof.
  split; [reflexivity|].
  apply (canonical_key_idempotent_iff "PalmOSsdk-4.0"); [reflexivity|].
  repeat split; try reflexivity.
  intros [|a [|b [|c t]]]; vm_compute; discriminate.
Defined.

End CanonicalKey.

(** ** The tree analyser *)

Section TreeAnalyzer.

Variable h : host.

(** An entry whose key is already stored is reported and changes neither
    list. *)
Lemma analyze_dirent_overridden_effect (d : string) (report : bool)
    (e : dirent) (st : state) (n : nat) (o : root) :
  is_sdk_entry h d e = true ->
  find (sdk_root_list st) (Some (canonical_key (d_name e))) = Returned (Some o) ->
  exists st1,
    analyze_dirent h d report e (st, n) = Returned (st1, S n) /\
    generic_root_list st1 = generic_root_list st /\
    sdk_root_list st1 = sdk_root_list st /\
    stdout st1 =
      stdout st
      ++ (if report
          then report_head (d_name e) ++ "UNUSED -- hidden by " ++ prefix o ++ NL
          else EmptyString) /\
    forall f target default_sdk,
      write_specs h st1 f target default_sdk =
      write_specs h st f target default_sdk.
Proof.
  intros E F.
  rewrite (analyze_dirent_overridden h d report e st n o E F).
  eexists; split; [reflexivity|].
  destruct report; cbn [printf generic_root_list sdk_root_list stdout];
    repeat split; auto.
  now rewrite append_empty_r.
Qed.

(** C1, amended: the root stored under a key is the one of the first
    entry scanned, among the "sdk-" directories canonicalising to that key,
    that has a headers subdirectory; it is the only root stored under the
    key.  An entry scanned while a root is stored under its key is only
    reported as hidden by that root (when reporting is on): it is not
    inserted, replaces nothing, and leaves both lists, hence the generated
    text, as they were. *)
Theorem first_sdk_with_headers_is_stored (report : bool) (args : list string)
    (before after : list (string * dirent)) (ent : string * dirent) :
  paths_fit h args = true ->
  sdk_entries h args = (before ++ ent :: after)%list ->
  has_headers (root_of h (sdk_path ent)) = true ->
  (forall ent', In ent' before ->
     strcmp (canonical_key (d_name (snd ent)))
            (canonical_key (d_name (snd ent'))) = 0%Z ->
     has_headers (root_of h (sdk_path ent')) = false) ->
  exists st',
    main_scan h args report initial_state = Returned st' /\
    find (sdk_root_list st') (Some (canonical_key (d_name (snd ent)))) =
      Returned (Some (sdk_root_of h ent)) /\
    stored_under (canonical_key (d_name (snd ent))) (sdk_root_list st') =
      [sdk_root_of h ent] /\
    forall d e st n o,
      is_sdk_entry h d e = true ->
      find (sdk_root_list st) (Some (canonical_key (d_name e))) =
        Returned (Some o) ->
      exists st1,
        analyze_dirent h d report e (st, n) = Returned (st1, S n) /\
        generic_root_list st1 = generic_root_list st /\
        sdk_root_list st1 = sdk_root_list st /\
        stdout st1 =
          stdout st
          ++ (if report
              then report_head (d_name e) ++ "UNUSED -- hidden by "
                   ++ prefix o ++ NL
              else EmptyString) /\
        forall f target default_sdk,
          write_specs h st1 f target default_sdk =
          write_specs h st f target default_sdk.
Proof.
  intros Hfit Hents Hh Hb.
  destruct (main_scan_discovers h report args initial_state [] tracks_initial Hfit)
    as (st' & Hm & _ & Hl & Hk).
  exists st'; split; [exact Hm|].
  assert (Hs : stored_under (canonical_key (d_name (snd ent)))
                 (sdk_root_list st') = [sdk_root_of h ent]).
  { rewrite Hl; unfold stored_under; rewrite filter_rev.
    fold (stored_under (canonical_key (d_name (snd ent)))
            (discover h (sdk_entries h args) [])).
    rewrite Hents, discover_first_with_headers; auto. }
  split; [|split; [exact Hs|]].
  - rewrite find_keyed by (rewrite Hl, all_keyed_rev; exact Hk).
    rewrite find_stored_under, Hs; reflexivity.
  - intros d e st n o; apply analyze_dirent_overridden_effect.
Qed.

(** C5: an "sdk-" directory with neither include nor Incs is never stored,
    whatever else it holds.  After a run every stored SDK root has its
    headers subdirectory, so no path without one is the path of a stored
    root; and the turn of the loop that builds the root of such a
    directory reports it invalid (when reporting is on), inserts nothing
    and leaves both lists, hence the generated text, as they were. *)
Theorem sdk_without_headers_is_not_stored (report : bool) (args : list string) :
  paths_fit h args = true ->
  exists st',
    main_scan h args report initial_state = Returned st' /\
    (forall r, In r (sdk_root_list st') -> with_headers h r = true) /\
    (forall path,
       is_dir h (path ++ "/include") = false ->
       is_dir h (path ++ "/Incs") = false ->
       ~ In path (map prefix (sdk_root_list st'))) /\
    forall d e st n,
      is_sdk_entry h d e = true ->
      find (sdk_root_list st) (Some (canonical_key (d_name e))) = Returned None ->
      fits h (sdk_path (d, e)) = true ->
      is_dir h (sdk_path (d, e) ++ "/include") = false ->
      is_dir h (sdk_path (d, e) ++ "/Incs") = false ->
      exists st1,
        analyze_dirent h d report e (st, n) = Returned (st1, S n) /\
        generic_root_list st1 = generic_root_list st /\
        sdk_root_list st1 = sdk_root_list st /\
        stdout st1 =
          stdout st
          ++ (if report
              then report_head (d_name e) ++ "INVALID -- no headers" ++ NL
              else EmptyString) /\
        forall f target default_sdk,
          write_specs h st1 f target default_sdk =
          write_specs h st f target default_sdk.
Proof.
  intros Hfit.
  destruct (main_scan_discovers h report args initial_state [] tracks_initial Hfit)
    as (st' & Hm & _ & Hl & Hk).
  exists st'; split; [exact Hm|].
  assert (Hw : forall r, In r (sdk_root_list st') -> with_headers h r = true).
  { intros r Hr. rewrite Hl in Hr. apply in_rev in Hr.
    pose proof (discover_with_headers h (sdk_entries h args) [] eq_refl) as Hall.
    rewrite forallb_forall in Hall; auto. }
  split; [exact Hw|]. split.
  - intros path Hi Hc Hin.
    apply in_map_iff in Hin; destruct Hin as (r & <- & Hr).
    apply Hw in Hr; unfold with_headers in Hr.
    rewrite Hi, Hc, andb_false_r in Hr; discriminate.
  - intros d e st n F E P Hi Hc.
    assert (Hh : has_headers (root_of h (sdk_path (d, e))) = false)
      by (rewrite root_of_headers_dir, Hi, Hc; reflexivity).
    rewrite (analyze_dirent_invalid h d report e st n F E P Hh).
    eexists; split; [reflexivity|].
    destruct report; cbn [printf generic_root_list sdk_root_list stdout];
      repeat split; auto.
    now rewrite append_empty_r.
Qed.

(** C8: when the base directory cannot be opened, the call returns with
    the state it was given: both lists, the standard output and the
    warnings are as before, and nothing is signalled.  So a run whose
    default directory is absent goes on with the directories of the
    command line, from the same state. *)
Theorem analyze_unopened_directory_is_noop (d : string) (report : bool)
    (st : state) :
  opendir h d = None ->
  analyze_palmdev_tree h d report st = Returned st /\
  (d = PALMDEV_PREFIX h ->
   forall args, main_scan h args report st = main_scan_args h args report st).
Proof.
  intros E; split.
  - unfold analyze_palmdev_tree; rewrite E; reflexivity.
  - intros -> args; unfold main_scan, analyze_palmdev_tree.
    rewrite E; reflexivity.
Qed.

End TreeAnalyzer.

(** C1, as the claim states it, fails: when the sdk-5 of the directory
    scanned first has no headers, the root stored is the one of the
    directory scanned second, which is inserted and not reported as
    overridden. *)
Lemma second_scanned_sdk_is_stored :
  exists st',
    main_scan host_sdk5_first_invalid ["/b"] true initial_state = Returned st' /\
    map prefix (sdk_root_list st') = ["/b/sdk-5"] /\
    stdout st' =
      "Checking SDKs in /a" ++ NL
      ++ "  sdk-5        " ++ TAB ++ "INVALID -- no headers" ++ NL ++ NL
      ++ "Checking SDKs in /b" ++ NL
      ++ "  sdk-5        " ++ TAB ++ "headers in 'include', no libraries" ++ NL
      ++ NL.
Proof. eexists; split; [vm_compute; reflexivity|]. split; reflexivity. Qed.

Lemma first_sdk_with_headers_is_stored_witness :
  exists st',
    main_scan host_sdk5_twice ["/b"] true initial_state = Returned st' /\
    map prefix (sdk_root_list st') = ["/a/sdk-5"].
Proof.
  destruct (first_sdk_with_headers_is_stored host_sdk5_twice true ["/b"]
              [] [("/b", Build_dirent "sdk-5")] ("/a", Build_dirent "sdk-5"))
    as (st' & Hm & _ & Hs & _).
  - reflexivity.
  - reflexivity.
  - reflexivity.
  - intros ent' [].
  - exists st'; split; [exact Hm|].
    revert Hs; unfold stored_under.
    vm_compute in Hm; injection Hm as <-. reflexivity.
Defined.

Lemma sdk_without_headers_is_not_stored_witness :
  exists st',
    main_scan host_sdk3_no_headers [] true initial_state = Returned st' /\
    sdk_root_list st' = [] /\
    stdout st' =
      "Checking SDKs in /opt/palmdev" ++ NL
      ++ "  sdk-3        " ++ TAB ++ "INVALID -- no headers" ++ NL ++ NL.
Proof.
  destruct (sdk_without_headers_is_not_stored host_sdk3_no_headers true [])
    as (st' & Hm & _ & _ & _); [reflexivity|].
  exists st'; split; [exact Hm|].
  vm_compute in Hm; injection Hm as <-. split; reflexivity.
Defined.

Lemma analyze_unopened_directory_is_noop_witness :
  opendir host_one_sdk "/nowhere" = None /\
  analyze_palmdev_tree host_one_sdk "/nowhere" true initial_state =
  Returned initial_state.
Proof.
  split; [reflexivity|].
  apply (analyze_unopened_directory_is_noop host_one_sdk "/nowhere" true
           initial_state); reflexivity.
Defined.

(** C9: [make_root] has no test on the length of the path: on a host
    whose FILENAME_MAX is 4096, the 4098 bytes of the path of sdk-5, and
    the terminator, are stored in the 4096 bytes of [path], 3 bytes past
    its end.  No error is raised: the behaviour of the program is
    undefined from there. *)
Theorem long_sdk_path_overruns_path_buffer :
  String.length (sdk_path (deep 1023, Build_dirent "sdk-5")) = 4098 /\
  is_sdk_entry host_deep (deep 1023) (Build_dirent "sdk-5") = true /\
  make_root host_deep (sdk_path (deep 1023, Build_dirent "sdk-5")) =
    Undefined (buffer_overrun 3) /\
  main_scan host_deep [] false initial_state = Undefined (buffer_overrun 3).
Proof. repeat split; vm_compute; reflexivity. Qed.

(** ** The default SDK *)

Section DefaultSdkClaims.

(** Keys 3, 10 and 9, in whatever order the list holds them, give 9. *)
Example default_of_3_10_9_in_any_order (a b c : root) :
  In [a; b; c]
    (let r3 := stored_sdk "/opt/palmdev/sdk-3" "3" in
     let r10 := stored_sdk "/opt/palmdev/sdk-10" "10" in
     let r9 := stored_sdk "/opt/palmdev/sdk-9" "9" in
     [[r3; r10; r9]; [r3; r9; r10]; [r10; r3; r9];
      [r10; r9; r3]; [r9; r3; r10]; [r9; r10; r3]]) ->
  main_highest [a; b; c] a = Returned (stored_sdk "/opt/palmdev/sdk-9" "9").
Proof.
  cbv zeta.
  intros [E|[E|[E|[E|[E|[E|[]]]]]]]; injection E as <- <- <-; reflexivity.
Qed.

(** C4: with no SDK requested and a list that is not empty, the default is
    a root of the list that no root of the list is above in the order of
    strcmp(); a requested SDK that is not found is warned about and the
    choice is the automatic one; with an empty list there is no default. *)
Theorem default_sdk_has_greatest_key (report : bool) (st : state) :
  all_keyed (sdk_root_list st) = true ->
  (sdk_root_list st <> [] ->
   exists d,
     main_default_sdk None report st =
       Returned (Some d,
                 if report then printf (default_report (key_text d)) st else st) /\
     In d (sdk_root_list st) /\
     forall r, In r (sdk_root_list st) ->
       (strcmp (key_text r) (key_text d) <= 0)%Z) /\
  (forall nm,
     find (sdk_root_list st) (Some (canonical_key nm)) = Returned None ->
     main_default_sdk (Some nm) report st =
     main_default_sdk None report (warning (not_found_warning nm) st)) /\
  (sdk_root_list st = [] ->
   forall name,
     main_default_sdk name report st =
     Returned (None,
               match name with
               | Some nm => warning (not_found_warning nm) st
               | None => st
               end)).
Proof.
  intros Hk; repeat split.
  - intros Hne.
    destruct (main_default_sdk_automatic report st Hk Hne)
      as (d & l1 & l2 & Hm & _ & El & H1 & H2).
    exists d; split; [exact Hm|]. rewrite El; split.
    + apply in_or_app; right; now left.
    + intros r Hr; apply in_app_or in Hr.
      destruct Hr as [Hr|[<-|Hr]]; auto.
      * apply H1 in Hr; lia.
      * rewrite strcmp_refl; lia.
  - intros nm; apply main_default_sdk_not_found.
  - intros El name; apply main_default_sdk_none, El.
Qed.

End DefaultSdkClaims.

Lemma default_sdk_has_greatest_key_witness :
  exists d,
    main_default_sdk None false state_3_10_9 = Returned (Some d, state_3_10_9) /\
    key d = Some "9".
Proof.
  destruct (default_sdk_has_greatest_key false state_3_10_9 eq_refl)
    as (Hauto & _ & _).
  destruct Hauto as (d & Hm & Hin & Hmax); [discriminate|].
  exists d; split; [exact Hm|].
  pose proof (Hmax (stored_sdk "/opt/palmdev/sdk-9" "9")
                (or_intror (or_intror (or_introl eq_refl)))) as H9.
  destruct Hin as [<-|[<-|[<-|[]]]]; vm_compute in H9;
    try reflexivity; exfalso; apply H9; reflexivity.
Defined.

(** ** The generated text *)

Section SpecsClaims.

Variable h : host.

(** C6: the umbrella block is, in this order: its head, the options of the
    directory trees of the generic roots in the order of the list, which is
    the order in which the directories were scanned; for each SDK root, in
    the order of the SDK list, the reference to its block guarded by the
    flag of its key (with its ".0" twin when the key is all digits); when
    there is a default SDK, one reference to its block guarded by the
    absence of any -palmos flag; and the closing of the group. *)
Theorem umbrella_block_order (st : state) (f : FILE) (target : option string)
    (default_sdk : option root) (kind : sub_kind) :
  all_keyed (sdk_root_list st) = true ->
  match default_sdk with Some d => keyed d | None => true end = true ->
  write_main_spec h st f target default_sdk kind =
    Returned
      (f ++ umbrella_head kind
       ++ concat_all (map (root_options h target kind) (generic_root_list st))
       ++ concat_all (map (sdk_refs kind) (sdk_root_list st))
       ++ match default_sdk with
          | Some d => default_ref kind (key_text d)
          | None => EmptyString
          end
       ++ umbrella_tail) /\
  forall report args,
    paths_fit h args = true ->
    exists st',
      main_scan h args report initial_state = Returned st' /\
      generic_root_list st' = flat_map (common_root h) (scanned h args).
Proof.
  intros Hk Hd; split.
  - apply write_main_spec_app; assumption.
  - intros report args Hfit.
    destruct (main_scan_discovers h report args initial_state []
                tracks_initial Hfit) as (st' & Hm & Hg & _).
    exists st'; auto.
Qed.

(** C7: in the umbrella block each SDK root has its reference guarded by
    -palmosK, followed by a second reference to the same block guarded by
    -palmosK.0 exactly when every byte of the key K is a decimal digit. *)
Theorem dot_zero_reference_for_digit_keys (f : FILE) (kind : sub_kind)
    (sdks : list root) :
  all_keyed sdks = true ->
  write_sdk_refs f sdks kind =
  Returned
    (f ++ concat_all
            (map (fun sdk =>
                    if all_digits (key_text sdk)
                    then guarded_ref kind (key_text sdk)
                         ++ dot_zero_ref kind (key_text sdk)
                    else guarded_ref kind (key_text sdk))
               sdks)).
Proof.
  intros Hk; rewrite write_sdk_refs_app by exact Hk.
  do 3 f_equal. apply map_ext; intros sdk; unfold sdk_refs.
  destruct (all_digits (key_text sdk)); [reflexivity | apply append_empty_r].
Qed.

(** C10: [sdk_root_list] holds the SDK roots in the reverse of the order
    of their discovery, and each of its enumerations follows the list from
    its head: the named blocks of [write_specs], the guarded references of
    [write_main_spec], and the loop for the default SDK, which among
    roots of equal keys keeps the one it meets first. *)
Theorem sdk_roots_enumerated_newest_first (report : bool) (args : list string) :
  paths_fit h args = true ->
  exists st',
    main_scan h args report initial_state = Returned st' /\
    sdk_root_list st' = rev (discover h (sdk_entries h args) []) /\
    (forall f target,
       write_sdk_specs h f (sdk_root_list st') (Some target) =
       Returned
         (f ++ concat_all
                 (map (sdk_blocks h target)
                    (rev (discover h (sdk_entries h args) []))))) /\
    (forall f kind,
       write_sdk_refs f (sdk_root_list st') kind =
       Returned
         (f ++ concat_all
                 (map (sdk_refs kind)
                    (rev (discover h (sdk_entries h args) []))))) /\
    (discover h (sdk_entries h args) [] <> [] ->
     exists d newer older,
       main_default_sdk None report st' =
         Returned (Some d,
                   if report then printf (default_report (key_text d)) st'
                   else st') /\
       rev (discover h (sdk_entries h args) []) = (newer ++ d :: older)%list /\
       (forall r, In r newer -> (strcmp (key_text r) (key_text d) < 0)%Z) /\
       (forall r, In r older -> (strcmp (key_text r) (key_text d) <= 0)%Z)).
Proof.
  intros Hfit.
  destruct (main_scan_discovers h report args initial_state [] tracks_initial Hfit)
    as (st' & Hm & _ & Hl & Hk).
  assert (Hk' : all_keyed (sdk_root_list st') = true)
    by (rewrite Hl, all_keyed_rev; exact Hk).
  exists st'; split; [exact Hm|]. split; [exact Hl|].
  rewrite <- Hl. repeat split.
  - intros f target; apply write_sdk_specs_app, Hk'.
  - intros f kind; apply write_sdk_refs_app, Hk'.
  - intros Hne.
    assert (Hne' : sdk_root_list st' <> []).
    { rewrite Hl; intros E; apply Hne.
      apply (f_equal (@rev root)) in E; rewrite rev_involutive in E; exact E. }
    destruct (main_default_sdk_automatic report st' Hk' Hne')
      as (d & l1 & l2 & Hd & _ & El & H1 & H2).
    exists d, l1, l2; auto.
Qed.

End SpecsClaims.

Lemma umbrella_block_order_witness :
  write_main_spec host_3_4 state_3_4 EmptyString None
    (Some (stored_sdk "/opt/palmdev/sdk-4" "4")) include =
  Returned
    ("*cpp:" ++ NL
     ++ "+ %{!palmos-none: -isystem /opt/palmdev/include"
     ++ " %{palmos3:%(cpp_sdk_3)} %{palmos3.0:%(cpp_sdk_3)}"
     ++ " %{palmos4:%(cpp_sdk_4)} %{palmos4.0:%(cpp_sdk_4)}"
     ++ " %{!palmos*: %(cpp_sdk_4)}}" ++ NL ++ NL).
Proof.
  destruct (umbrella_block_order host_3_4 state_3_4 EmptyString None
              (Some (stored_sdk "/opt/palmdev/sdk-4" "4")) include
              eq_refl eq_refl) as [Hw _].
  rewrite Hw; reflexivity.
Defined.

Lemma dot_zero_reference_for_digit_keys_witness :
  write_sdk_refs EmptyString
    [stored_sdk "/opt/palmdev/sdk-3.5" "3.5"; stored_sdk "/opt/palmdev/sdk-4" "4"]
    lib =
  Returned
    (" %{palmos3.5:%(link_sdk_3.5)}"
     ++ " %{palmos4:%(link_sdk_4)} %{palmos4.0:%(link_sdk_4)}").
Proof.
  rewrite (dot_zero_reference_for_digit_keys EmptyString lib
             [stored_sdk "/opt/palmdev/sdk-3.5" "3.5";
              stored_sdk "/opt/palmdev/sdk-4" "4"] eq_refl).
  reflexivity.
Defined.

Lemma sdk_roots_enumerated_newest_first_witness :
  exists st',
    main_scan host_3_4 [] false initial_state = Returned st' /\
    map key (sdk_root_list st') = [Some "3"; Some "4"] /\
    map (fun ent => d_name (snd ent)) (sdk_entries host_3_4 []) =
      ["sdk-4"; "sdk-3"].
Proof.
  destruct (sdk_roots_enumerated_newest_first host_3_4 false [] eq_refl)
    as (st' & Hm & Hl & _).
  exists st'; split; [exact Hm|]. rewrite Hl. split; reflexivity.
Defined.

(** ** More on names and keys *)

Section NamesAndKeys.

Lemma tolower_not_upper (c : ascii) : is_upper (tolower c) = false.
Proof. destruct c as [[] [] [] [] [] [] [] []]; reflexivity. Qed.


(** Only [str] is folded: a prefix that holds an upper-case letter matches
    no string at all. *)
Theorem matches_upper_case_prefix_never (prefix str : string) :
  has_upper prefix = true -> matches prefix str = false.
Proof.
  revert str; induction prefix as [|p prefix IH]; intros str; simpl;
    [discriminate|].
  intros H. destruct str as [|c str]; auto.
  destruct (Ascii.eqb_spec (tolower c) p) as [<-|Hne]; auto.
  rewrite tolower_not_upper in H. apply IH, H.
Qed.

Lemma matches_upper_case_prefix_never_witness :
  has_upper "SDK-" = true /\ matches "SDK-" "SDK-4" = false.
Proof.
  split; [reflexivity|].
  apply (matches_upper_case_prefix_never "SDK-" "SDK-4"); reflexivity.
Defined.






Lemma canonical_key_of_start (name : string) :
  no_nul (key_start name) = true ->
  (forall t, key_start name <> t ++ ".0") ->
  canonical_key name = key_start name.
Proof.
  intros Hc Hn; unfold canonical_key, insert_string.
  destruct (strrchr (key_start name) ".") as [dot|] eqn:Ed; auto.
  destruct (strcmp (advance dot (key_start name)) ".0" =? 0)%Z eqn:Ec; auto.
  exfalso. apply Z.eqb_eq in Ec. apply strcmp_eq in Ec; auto.
  - apply (Hn (cut_at dot (key_start name))).
    rewrite <- Ec. symmetry; apply cut_at_advance.
  - apply no_nul_advance, Hc.
Qed.

(** After "sdk-" or "palmossdk-", in any letter case, the key starts. *)
Lemma key_start_after_prefix (pre w : string) :
  lowercase pre = "sdk-" \/ lowercase pre = "palmossdk-" ->
  key_start (pre ++ w) = w.
Proof.
  intros [E|E];
    repeat (destruct pre as [|? pre]; try discriminate E);
    simpl in E; injection E; intros;
    unfold key_start;
    repeat (simpl;
            match goal with
            | H : tolower _ = _ |- _ => rewrite !H
            end);
    simpl; reflexivity.
Qed.

(** A directory "sdk-V.0" has the key of "sdk-V": for every version V that
    does not itself end in ".0", both names, with the prefix in any letter
    case, have the key V. *)
Theorem sdk_dot_zero_has_the_key_of_sdk (pre v : string) :
  lowercase pre = "sdk-" \/ lowercase pre = "palmossdk-" ->
  no_nul v = true ->
  (forall t, v <> t ++ ".0") ->
  canonical_key (pre ++ v ++ ".0") = v /\ canonical_key (pre ++ v) = v.
Proof.
  intros Hp Hc Hn; split.
  - apply canonical_key_suffix, key_start_after_prefix, Hp.
  - pose proof (key_start_after_prefix pre v Hp) as Ek.
    rewrite canonical_key_of_start; rewrite Ek; auto.
Qed.

Lemma sdk_dot_zero_has_the_key_of_sdk_witness :
  canonical_key "Sdk-3.5.0" = "3.5" /\ canonical_key "Sdk-3.5" = "3.5".
Proof.
  apply (sdk_dot_zero_has_the_key_of_sdk "Sdk-" "3.5").
  - left; reflexivity.
  - reflexivity.
  - intros [|a [|b [|c [|d t]]]]; vm_compute; discriminate.
Defined.

End NamesAndKeys.

(** ** More on scanning *)

Section ScanEffects.

Variable h : host.

Ltac bind_inv H :=
  repeat match type of H with
         | context [bind ?c _] =>
             let E := fresh "E" in
             destruct c eqn:E; cbn [bind] in H; [|discriminate H]
         end.

(** [find] answers the first root of the list stored under the key, and
    none exactly when no root of the list is stored under it. *)
Theorem find_first_stored (l : list root) (k : string) :
  all_keyed l = true ->
  (forall r,
     find l (Some k) = Returned (Some r) <->
     exists l1 l2,
       l = (l1 ++ r :: l2)%list /\ same_key k r = true /\
       forall r', In r' l1 -> same_key k r' = false) /\
  (find l (Some k) = Returned None <->
   forall r, In r l -> same_key k r = false).
Proof.
  intros Hk; rewrite (find_keyed l k Hk); clear Hk.
  induction l as [|a l [IH1 IH2]]; cbn [List.find].
  - split.
    + intros r; split; [discriminate|].
      intros ([|x l1] & l2 & E & _); discriminate.
    + split; auto. intros _ r [].
  - destruct (same_key k a) eqn:Ea; split.
    + intros r; split.
      * intros E; injection E as <-. exists [], l; repeat split; auto.
        intros r' [].
      * intros ([|x l1] & l2 & E & Hr & Hl1).
        -- injection E as -> _; reflexivity.
        -- injection E as -> _. rewrite (Hl1 x) in Ea by now left.
           discriminate.
    + split; [discriminate|].
      intros H; rewrite (H a) in Ea by now left. discriminate.
    + intros r; rewrite IH1; split.
      * intros (l1 & l2 & -> & Hr & Hl1).
        exists (a :: l1), l2; repeat split; auto.
        intros r' [<-|Hin]; auto.
      * intros ([|x l1] & l2 & E & Hr & Hl1).
        -- injection E as -> _; congruence.
        -- injection E as -> ->. exists l1, l2; repeat split; auto.
           intros r' Hin; apply Hl1; now right.
    + rewrite IH2; split.
      * intros H r [<-|Hin]; auto.
      * intros H r Hin; apply H; now right.
Qed.

Lemma find_first_stored_witness :
  find (sdk_root_list state_3_10_9) (Some "10") =
    Returned (Some (stored_sdk "/opt/palmdev/sdk-10" "10")) /\
  find (sdk_root_list state_3_10_9) (Some "4") = Returned None.
Proof.
  destruct (find_first_stored (sdk_root_list state_3_10_9) "10" eq_refl)
    as [H10 _].
  destruct (find_first_stored (sdk_root_list state_3_10_9) "4" eq_refl)
    as [_ H4].
  split.
  - apply H10.
    exists [stored_sdk "/opt/palmdev/sdk-3" "3"],
           [stored_sdk "/opt/palmdev/sdk-9" "9"].
    repeat split. intros r' [<-|[]]; reflexivity.
  - apply H4. intros r [<-|[<-|[<-|[]]]]; reflexivity.
Defined.

(** *** What a run keeps *)

Lemma tracks_keyed (st : state) :
  all_keyed (sdk_root_list st) = true -> tracks st (rev (sdk_root_list st)).
Proof.
  intros Hk; split; [now rewrite rev_involutive|].
  now rewrite all_keyed_rev.
Qed.

Lemma discover_entry_extends (found : list root) (ent : string * dirent) :
  exists extra, discover_entry h found ent = (found ++ extra)%list.
Proof.
  unfold discover_entry.
  destruct (existsb _ found); [exists []; now rewrite app_nil_r|].
  destruct (has_headers _); [eexists; reflexivity|].
  exists []; now rewrite app_nil_r.
Qed.

Lemma discover_extends (ents : list (string * dirent)) :
  forall found, exists extra, discover h ents found = (found ++ extra)%list.
Proof.
  induction ents as [|ent ents IH]; intros found.
  - exists []; now rewrite app_nil_r.
  - rewrite discover_cons.
    destruct (discover_entry_extends found ent) as [x ->].
    destruct (IH (found ++ x)%list) as [y ->].
    exists (x ++ y)%list; now rewrite app_assoc.
Qed.

Lemma stored_under_app (k : string) (l1 l2 : list root) :
  stored_under k (l1 ++ l2) = (stored_under k l1 ++ stored_under k l2)%list.
Proof. apply filter_app. Qed.

Lemma existsb_stored_under (k : string) (l : list root) :
  existsb (same_key k) l = false -> stored_under k l = [].
Proof.
  unfold stored_under; induction l as [|a l IH]; simpl; auto.
  destruct (same_key k a); simpl; [discriminate | exact IH].
Qed.

Lemma discover_entry_keys_unique (found : list root) (ent : string * dirent) :
  keys_unique found -> keys_unique (discover_entry h found ent).
Proof.
  intros Hu; unfold discover_entry.
  destruct (existsb _ found) eqn:Ex; auto.
  destruct (has_headers _); auto.
  intros k; rewrite stored_under_app, List.length_app.
  unfold stored_under at 2; cbn [filter].
  destruct (same_key k (sdk_root_of h ent)) eqn:Ek; cbn [List.length].
  - rewrite same_key_sdk_root_of in Ek; apply Z.eqb_eq in Ek.
    assert (X : stored_under k found = []).
    { apply existsb_stored_under.
      destruct (existsb (same_key k) found) eqn:Ef; auto.
      apply existsb_exists in Ef; destruct Ef as (r & Hin & Hr).
      assert (Y : existsb (same_key (canonical_key (d_name (snd ent)))) found
                  = true).
      { apply existsb_exists; exists r; split; auto.
        apply (same_key_trans k); auto. }
      congruence. }
    rewrite X; simpl; lia.
  - specialize (Hu k); lia.
Qed.

Lemma discover_keys_unique (ents : list (string * dirent)) :
  forall found, keys_unique found -> keys_unique (discover h ents found).
Proof.
  induction ents as [|ent ents IH]; intros found Hu; auto.
  rewrite discover_cons; apply IH, discover_entry_keys_unique, Hu.
Qed.

Lemma keys_unique_rev (l : list root) : keys_unique l -> keys_unique (rev l).
Proof.
  intros Hu k; unfold stored_under; rewrite filter_rev, length_rev; apply Hu.
Qed.

(** After a run no two roots of [sdk_root_list] have the same key. *)
Theorem sdk_keys_are_unique (report : bool) (args : list string) :
  paths_fit h args = true ->
  exists st',
    main_scan h args report initial_state = Returned st' /\
    forall k, (List.length (stored_under k (sdk_root_list st')) <= 1)%nat.
Proof.
  intros Hfit.
  destruct (main_scan_discovers h report args initial_state [] tracks_initial Hfit)
    as (st' & Hm & _ & Hl & _).
  exists st'; split; [exact Hm|].
  rewrite Hl; apply keys_unique_rev, discover_keys_unique.
  intros k; simpl; lia.
Qed.


(** *** What scanning leaves alone *)

Lemma analyze_dirent_frame (d : string) (report : bool) (e : dirent)
    (st st' : state) (n n' : nat) :
  analyze_dirent h d report e (st, n) = Returned (st', n') ->
  generic_root_list st' = generic_root_list st /\
  warnings st' = warnings st /\
  (report = false -> stdout st' = stdout st) /\
  n' = (n + if is_sdk_entry h d e then 1 else 0)%nat.
Proof.
  unfold analyze_dirent, is_sdk_entry.
  destruct (matches "sdk-" (d_name e) && is_dir_dirent h e (d ++ "/" ++ d_name e)).
  - intros H. bind_inv H. clear E E0.
    assert (X : generic_root_list a1 = generic_root_list st /\
                warnings a1 = warnings st /\
                (report = false -> stdout a1 = stdout st)).
    { destruct report; [bind_inv E1|]; injection E1 as <-;
        repeat split; auto; discriminate. }
    destruct X as (Xg & Xw & Xs).
    destruct a0 as [r|]; [destruct (sub r include)|];
      injection H as <- <-;
      cbn [generic_root_list warnings stdout set_sdk_root_list];
      repeat split; auto; lia.
  - intros H; injection H as <- <-. repeat split; auto; lia.
Qed.

Lemma analyze_dirents_frame (d : string) (report : bool) (es : list dirent) :
  forall (st st' : state) (n n' : nat),
  analyze_dirents h d report es (st, n) = Returned (st', n') ->
  generic_root_list st' = generic_root_list st /\
  warnings st' = warnings st /\
  (report = false -> stdout st' = stdout st) /\
  n' = (n + List.length (filter (is_sdk_entry h d) es))%nat.
Proof.
  induction es as [|e es IH]; intros st st' n n' H;
    cbn [analyze_dirents filter] in H |- *.
  - injection H as <- <-. repeat split; auto.
  - bind_inv H. destruct a as [st1 n1].
    apply analyze_dirent_frame in E. apply IH in H.
    destruct E as (G1 & W1 & S1 & N1), H as (G2 & W2 & S2 & N2).
    repeat split; try congruence.
    + intros R; rewrite S2, S1; auto.
    + destruct (is_sdk_entry h d e); simpl; lia.
Qed.

Lemma analyze_palmdev_tree_frame (d : string) (report : bool)
    (st st' : state) :
  analyze_palmdev_tree h d report st = Returned st' ->
  warnings st' = warnings st /\
  (report = false -> stdout st' = stdout st).
Proof.
  unfold analyze_palmdev_tree.
  destruct (opendir h d) as [es|]; [|intros H; injection H as <-; auto].
  intros H. bind_inv H. destruct a as [st1 n1].
  apply analyze_dirents_frame in E. destruct E as (_ & W1 & S1 & _).
  cbn beta iota zeta in H.
  assert (X : exists st2,
            warnings st2 = warnings st /\
            (report = false -> stdout st2 = stdout st) /\
            (if report && (n1 =? 0)%nat then printf ("  (none)" ++ NL) st1
             else st1) = st2).
  { eexists; split; [|split; [|reflexivity]].
    - destruct (report && (n1 =? 0)%nat); cbn [warnings printf]; rewrite W1;
        now destruct report.
    - intros ->; cbn [andb]. rewrite S1; auto. }
  destruct X as (st2 & W2 & S2 & X). rewrite X in H; clear X.
  bind_inv H. injection H as <-.
  match goal with
  | E0 : match sub ?r include with _ => _ end = Returned ?s |- _ =>
      assert (Y : warnings s = warnings st /\
                  (report = false -> stdout s = stdout st));
      [ destruct (sub r include); [|destruct (sub r lib)]; bind_inv E0;
        try (injection E0 as <-; auto; fail);
        injection E0 as <-; cbn [warnings stdout set_generic_root_list];
        match goal with
        | E1 : (if report then _ else _) = Returned _ |- _ =>
            destruct report; [bind_inv E1|]; injection E1 as <-;
            cbn [warnings stdout printf]; split; auto; discriminate
        end
      | ]
  end.
  destruct Y as [Yw Ys].
  destruct report; cbn [warnings stdout printf]; split; auto; discriminate.
Qed.

Lemma main_scan_args_frame (report : bool) (args : list string) :
  forall st st',
  main_scan_args h args report st = Returned st' ->
  warnings st' =
    (warnings st
     ++ map cant_open_warning (filter (fun a => negb (is_dir h a)) args))%list /\
  (report = false -> stdout st' = stdout st).
Proof.
  induction args as [|a args IH]; intros st st' H;
    cbn [main_scan_args filter map] in H |- *.
  - injection H as <-. rewrite app_nil_r; auto.
  - bind_inv H. apply IH in H. destruct H as [W S].
    destruct (is_dir h a); cbn [negb map].
    + apply analyze_palmdev_tree_frame in E. destruct E as [W1 S1].
      split; [congruence|]. intros R; rewrite S, S1; auto.
    + injection E as <-. cbn [warnings stdout warning] in W, S.
      split; auto. rewrite W, <- app_assoc; reflexivity.
Qed.

Lemma main_scan_frame (report : bool) (args : list string) (st st' : state) :
  main_scan h args report st = Returned st' ->
  warnings st' =
    (warnings st
     ++ map cant_open_warning (filter (fun a => negb (is_dir h a)) args))%list /\
  (report = false -> stdout st' = stdout st).
Proof.
  unfold main_scan; intros H. bind_inv H.
  apply analyze_palmdev_tree_frame in E. destruct E as [W1 S1].
  apply main_scan_args_frame in H. destruct H as [W S].
  split; [congruence|]. intros R; rewrite S, S1; auto.
Qed.

Lemma filter_is_dir_twice (args : list string) :
  filter (is_dir h) (filter (is_dir h) args) = filter (is_dir h) args.
Proof.
  induction args as [|a args IH]; simpl; auto.
  destruct (is_dir h a) eqn:Ea; simpl; rewrite ?Ea, IH; reflexivity.
Qed.

Lemma filter_not_dir_of_dirs (args : list string) :
  filter (fun a => negb (is_dir h a)) (filter (is_dir h) args) = [].
Proof.
  induction args as [|a args IH]; simpl; auto.
  destruct (is_dir h a) eqn:Ea; simpl; rewrite ?Ea; simpl; exact IH.
Qed.

(** An argument that is not a directory costs one warning and nothing
    else: the run adds one warning for each such argument, in the order of
    the command line, and ends with the lists of the run without them. *)
Theorem non_directories_are_warned_and_skipped (report : bool)
    (args : list string) :
  paths_fit h args = true ->
  exists st' st'',
    main_scan h args report initial_state = Returned st' /\
    warnings st' =
      map cant_open_warning (filter (fun a => negb (is_dir h a)) args) /\
    main_scan h (filter (is_dir h) args) report initial_state = Returned st'' /\
    warnings st'' = [] /\
    generic_root_list st' = generic_root_list st'' /\
    sdk_root_list st' = sdk_root_list st''.
Proof.
  intros Hfit.
  assert (Hfit' : paths_fit h (filter (is_dir h) args) = true).
  { revert Hfit; unfold paths_fit, sdk_entries, scanned.
    now rewrite filter_is_dir_twice. }
  destruct (main_scan_discovers h report args initial_state [] tracks_initial Hfit)
    as (st' & Hm & Hg & Hl & _).
  destruct (main_scan_discovers h report _ initial_state [] tracks_initial Hfit')
    as (st'' & Hm' & Hg' & Hl' & _).
  exists st', st''.
  pose proof (main_scan_frame _ _ _ _ Hm) as [W _].
  pose proof (main_scan_frame _ _ _ _ Hm') as [W' _].
  rewrite filter_not_dir_of_dirs in W'.
  repeat split; auto.
  - rewrite Hg, Hg'; unfold scanned; now rewrite filter_is_dir_twice.
  - rewrite Hl, Hl'; unfold sdk_entries, scanned.
    now rewrite filter_is_dir_twice.
Qed.

(** Reporting changes the standard output only: with and without it a run
    ends with the same two lists and the same warnings, and without it the
    scan prints nothing at all. *)
Theorem report_only_changes_output (args : list string) :
  paths_fit h args = true ->
  exists loud quiet,
    main_scan h args true initial_state = Returned loud /\
    main_scan h args false initial_state = Returned quiet /\
    generic_root_list loud = generic_root_list quiet /\
    sdk_root_list loud = sdk_root_list quiet /\
    warnings loud = warnings quiet /\
    stdout quiet = EmptyString.
Proof.
  intros Hfit.
  destruct (main_scan_discovers h true args initial_state [] tracks_initial Hfit)
    as (loud & Hm & Hg & Hl & _).
  destruct (main_scan_discovers h false args initial_state [] tracks_initial Hfit)
    as (quiet & Hm' & Hg' & Hl' & _).
  exists loud, quiet.
  pose proof (main_scan_frame _ _ _ _ Hm) as [W _].
  pose proof (main_scan_frame _ _ _ _ Hm') as [W' S'].
  repeat split; auto; try congruence.
Qed.

(** [analyze_palmdev_tree] only adds roots: the SDK list after the call is
    the list before with new roots in front, the generic list is the list
    before with at most the root of the directory at its end, and no root
    already there is removed, replaced or moved. *)
Theorem analyze_palmdev_tree_only_adds (d : string) (report : bool)
    (st : state) :
  all_keyed (sdk_root_list st) = true ->
  fits h d = true ->
  forallb (fun ent => fits h (sdk_path ent)) (entries_of h d) = true ->
  exists st' new,
    analyze_palmdev_tree h d report st = Returned st' /\
    sdk_root_list st' = (new ++ sdk_root_list st)%list /\
    all_keyed new = true /\
    generic_root_list st' = (generic_root_list st ++ common_root h d)%list /\
    warnings st' = warnings st.
Proof.
  intros Hk Pd P.
  destruct (analyze_palmdev_tree_discovers h d report st _ (tracks_keyed st Hk)
              Pd P) as (st' & Ha & Hg & Hl & Hk').
  destruct (discover_extends (entries_of h d) (rev (sdk_root_list st)))
    as [extra Ex].
  exists st', (rev extra); split; [exact Ha|].
  rewrite Ex in Hl, Hk'. rewrite rev_app_distr, rev_involutive in Hl.
  repeat split; auto.
  - rewrite all_keyed_rev. unfold all_keyed in Hk' |- *.
    rewrite forallb_app in Hk'. apply andb_true_iff in Hk'; tauto.
  - apply (analyze_palmdev_tree_frame _ _ _ _ Ha).
Qed.

Lemma analyze_dirents_no_sdk (d : string) (report : bool) (es : list dirent) :
  forall st n,
  filter (is_sdk_entry h d) es = [] ->
  analyze_dirents h d report es (st, n) = Returned (st, n).
Proof.
  induction es as [|e es IH]; intros st n H; cbn [analyze_dirents]; auto.
  cbn [filter] in H. destruct (is_sdk_entry h d e) eqn:E; [discriminate|].
  rewrite (analyze_dirent_other h d report e st n E); cbn [bind]. auto.
Qed.

(** A directory that opens, holds no SDK directory and has neither headers
    nor libraries of its own changes no list; with reporting on, what is
    printed for it is its heading, "(none)" and an empty line. *)
Theorem directory_without_sdks_reports_none (d : string) (es : list dirent)
    (st : state) :
  opendir h d = Some es ->
  filter (is_sdk_entry h d) es = [] ->
  fits h d = true ->
  has_material (root_of h d) = false ->
  analyze_palmdev_tree h d false st = Returned st /\
  analyze_palmdev_tree h d true st =
    Returned
      (printf ("Checking SDKs in " ++ d ++ NL ++ "  (none)" ++ NL ++ NL) st).
Proof.
  intros Eo Ef Pd Hm; unfold analyze_palmdev_tree; rewrite Eo.
  rewrite !(analyze_dirents_no_sdk d _ es _ _ Ef); cbn [bind].
  rewrite (make_root_fits h d Pd); cbn [bind].
  unfold has_material in Hm.
  destruct (sub (root_of h d) include); [discriminate|].
  destruct (sub (root_of h d) lib); [discriminate|].
  cbn [bind andb Nat.eqb]. split; [reflexivity|].
  unfold printf; cbn [generic_root_list sdk_root_list stdout warnings].
  rewrite !append_assoc; reflexivity.
Qed.

(** The path of an entry is formatted only when its key is not stored
    yet: an entry whose key is stored is reported and passed over whatever
    the length of its path, and an entry whose key is not stored and whose
    path does not fit [path] takes the run out of defined behaviour. *)
Theorem long_path_matters_only_for_new_keys (d : string) (report : bool)
    (e : dirent) (st : state) (n : nat) :
  all_keyed (sdk_root_list st) = true ->
  is_sdk_entry h d e = true ->
  fits h (sdk_path (d, e)) = false ->
  (existsb (same_key (canonical_key (d_name e))) (sdk_root_list st) = true ->
   exists st1,
     analyze_dirent h d report e (st, n) = Returned (st1, S n) /\
     generic_root_list st1 = generic_root_list st /\
     sdk_root_list st1 = sdk_root_list st) /\
  (existsb (same_key (canonical_key (d_name e))) (sdk_root_list st) = false ->
   analyze_dirent h d report e (st, n) =
   Undefined
     (buffer_overrun (S (String.length (sdk_path (d, e))) - FILENAME_MAX h))).
Proof.
  intros Hk E P.
  pose proof (find_keyed (sdk_root_list st) (canonical_key (d_name e)) Hk) as F.
  split; intros Ex.
  - destruct (List.find _ (sdk_root_list st)) as [o|] eqn:Ef.
    + rewrite (analyze_dirent_overridden h d report e st n o E F).
      eexists; split; [reflexivity|]. destruct report; split; reflexivity.
    + apply find_some_existsb in Ef; congruence.
  - apply find_some_existsb in Ex. rewrite Ex in F.
    unfold analyze_dirent. unfold is_sdk_entry in E. rewrite E, F.
    cbn [bind]. unfold sdk_path in P |- *; cbn [fst snd] in P |- *.
    rewrite (make_root_overrun h _ P); reflexivity.
Qed.

End ScanEffects.

Lemma sdk_keys_are_unique_witness :
  exists st',
    main_scan host_sdk5_twice ["/b"] true initial_state = Returned st' /\
    List.length (stored_under "5" (sdk_root_list st')) = 1.
Proof.
  destruct (sdk_keys_are_unique host_sdk5_twice true ["/b"] eq_refl)
    as (st' & Hm & Hu).
  exists st'; split; [exact Hm|].
  clear Hu. vm_compute in Hm. injection Hm as <-. reflexivity.
Defined.


Lemma non_directories_are_warned_and_skipped_witness :
  exists st',
    main_scan host_one_sdk ["/nowhere"] false initial_state = Returned st' /\
    warnings st' = ["can't open '/nowhere': @P"].
Proof.
  destruct (non_directories_are_warned_and_skipped host_one_sdk false
              ["/nowhere"] eq_refl) as (st' & st'' & Hm & Hw & _).
  exists st'; split; [exact Hm | exact Hw].
Defined.

Lemma report_only_changes_output_witness :
  exists loud quiet,
    main_scan host_one_sdk [] true initial_state = Returned loud /\
    main_scan host_one_sdk [] false initial_state = Returned quiet /\
    sdk_root_list loud = sdk_root_list quiet.
Proof.
  destruct (report_only_changes_output host_one_sdk [] eq_refl)
    as (loud & quiet & H1 & H2 & _ & H3 & _).
  exists loud, quiet; auto.
Defined.

Lemma analyze_palmdev_tree_only_adds_witness :
  exists st' new,
    analyze_palmdev_tree host_sdk5_twice "/b" true state_3_10_9 = Returned st' /\
    sdk_root_list st' = (new ++ sdk_root_list state_3_10_9)%list.
Proof.
  destruct (analyze_palmdev_tree_only_adds host_sdk5_twice "/b" true
              state_3_10_9 eq_refl eq_refl eq_refl)
    as (st' & new & Ha & Hl & _).
  exists st', new; auto.
Defined.

Lemma directory_without_sdks_reports_none_witness :
  analyze_palmdev_tree host_empty_dir "/opt/palmdev" true initial_state =
  Returned
    (printf ("Checking SDKs in /opt/palmdev" ++ NL ++ "  (none)" ++ NL ++ NL)
       initial_state).
Proof.
  apply (directory_without_sdks_reports_none host_empty_dir "/opt/palmdev"
           [Build_dirent "."; Build_dirent ".."] initial_state);
    reflexivity.
Defined.

Lemma long_path_matters_only_for_new_keys_witness :
  analyze_dirent host_deep (deep 1023) false (Build_dirent "sdk-5")
    (initial_state, 0) =
  Undefined (buffer_overrun 3).
Proof.
  destruct (long_path_matters_only_for_new_keys host_deep (deep 1023) false
              (Build_dirent "sdk-5") initial_state 0) as [_ H].
  - reflexivity.
  - vm_compute; reflexivity.
  - vm_compute; reflexivity.
  - rewrite H by reflexivity. vm_compute; reflexivity.
Defined.

(** ** More on the default SDK and on the text *)

Section DefaultAndText.

Variable h : host.

Ltac bind_inv H :=
  repeat match type of H with
         | context [bind ?c _] =>
             let E := fresh "E" in
             destruct c eqn:E; cbn [bind] in H; [|discriminate H]
         end.

Lemma main_default_sdk_effects (name : option string) (report : bool)
    (st : state) :
  all_keyed (sdk_root_list st) = true ->
  exists d st',
    main_default_sdk name report st = Returned (d, st') /\
    generic_root_list st' = generic_root_list st /\
    sdk_root_list st' = sdk_root_list st /\
    (report = false -> stdout st' = stdout st) /\
    match d with
    | Some r => In r (sdk_root_list st) /\ keyed r = true
    | None => sdk_root_list st = []
    end.
Proof.
  intros Hk.
  assert (Auto : forall st0,
            all_keyed (sdk_root_list st0) = true ->
            exists d st',
              main_default_sdk None report st0 = Returned (d, st') /\
              generic_root_list st' = generic_root_list st0 /\
              sdk_root_list st' = sdk_root_list st0 /\
              (report = false -> stdout st' = stdout st0) /\
              match d with
              | Some r => In r (sdk_root_list st0) /\ keyed r = true
              | None => sdk_root_list st0 = []
              end).
  { intros st0 Hk0. destruct (sdk_root_list st0) as [|first rest] eqn:El.
    - exists None, st0. rewrite (main_default_sdk_none None report st0 El).
      repeat split; auto.
    - assert (Hne : sdk_root_list st0 <> []) by (rewrite El; discriminate).
      rewrite <- El in Hk0.
      destruct (main_default_sdk_automatic report st0 Hk0 Hne)
        as (d & l1 & l2 & Hm & Hkd & E & _).
      exists (Some d); eexists; split; [exact Hm|].
      rewrite <- El, E.
      destruct report; cbn [generic_root_list sdk_root_list stdout printf];
        repeat split; auto; try discriminate;
        apply in_or_app; right; now left. }
  destruct name as [nm|]; [|apply Auto, Hk].
  pose proof (find_keyed (sdk_root_list st) (canonical_key nm) Hk) as F.
  destruct (List.find _ (sdk_root_list st)) as [o|] eqn:Ef.
  - exists (Some o), st. rewrite (main_default_sdk_found nm report st o F).
    apply find_some in Ef. destruct Ef as [Hin _].
    repeat split; auto.
    unfold all_keyed in Hk; rewrite forallb_forall in Hk; auto.
  - rewrite (main_default_sdk_not_found nm report st F).
    apply (Auto (warning (not_found_warning nm) st)). exact Hk.
Qed.

(** The default SDK, requested or not, is always a root of the SDK list,
    and there is none only when the list is empty; choosing it changes
    neither list, and prints nothing when reporting is off. *)
Theorem default_sdk_is_in_the_list (name : option string) (report : bool)
    (st : state) :
  all_keyed (sdk_root_list st) = true ->
  exists d st',
    main_default_sdk name report st = Returned (d, st') /\
    generic_root_list st' = generic_root_list st /\
    sdk_root_list st' = sdk_root_list st /\
    (report = false -> stdout st' = stdout st) /\
    match d with
    | Some r => In r (sdk_root_list st) /\ keyed r = true
    | None => sdk_root_list st = []
    end.
Proof. apply main_default_sdk_effects. Qed.

Lemma same_key_equal_keys (k k' : string) (r : root) :
  strcmp k' k = 0%Z -> same_key k' r = same_key k r.
Proof.
  intros E.
  destruct (same_key k r) eqn:Ek.
  - apply (same_key_trans k); auto using strcmp_zero_sym.
  - destruct (same_key k' r) eqn:Ek'; auto.
    rewrite (same_key_trans k' k r E Ek') in Ek; discriminate.
Qed.

(** Lookup after insertion: once a run has stored the root of an entry,
    asking for the default SDK by the name of the entry, or by any name
    with the same canonical key, selects that root, with no warning and
    nothing printed. *)
Theorem requested_name_selects_stored_root (report : bool)
    (args : list string) (before after : list (string * dirent))
    (ent : string * dirent) (nm : string) :
  paths_fit h args = true ->
  sdk_entries h args = (before ++ ent :: after)%list ->
  has_headers (root_of h (sdk_path ent)) = true ->
  (forall ent', In ent' before ->
     strcmp (canonical_key (d_name (snd ent)))
            (canonical_key (d_name (snd ent'))) = 0%Z ->
     has_headers (root_of h (sdk_path ent')) = false) ->
  strcmp (canonical_key nm) (canonical_key (d_name (snd ent))) = 0%Z ->
  exists st',
    main_scan h args report initial_state = Returned st' /\
    main_default_sdk (Some nm) report st' =
      Returned (Some (sdk_root_of h ent), st') /\
    main_default_sdk (Some (d_name (snd ent))) report st' =
      Returned (Some (sdk_root_of h ent), st').
Proof.
  intros Hfit Hents Hh Hb Hnm.
  destruct (main_scan_discovers h report args initial_state [] tracks_initial Hfit)
    as (st' & Hm & _ & Hl & Hk).
  exists st'; split; [exact Hm|].
  assert (Hk' : all_keyed (sdk_root_list st') = true)
    by (rewrite Hl, all_keyed_rev; exact Hk).
  assert (Hs : stored_under (canonical_key (d_name (snd ent)))
                 (sdk_root_list st') = [sdk_root_of h ent]).
  { rewrite Hl; unfold stored_under; rewrite filter_rev.
    fold (stored_under (canonical_key (d_name (snd ent)))
            (discover h (sdk_entries h args) [])).
    rewrite Hents, discover_first_with_headers; auto. }
  assert (F : forall k, strcmp k (canonical_key (d_name (snd ent))) = 0%Z ->
              find (sdk_root_list st') (Some k) =
              Returned (Some (sdk_root_of h ent))).
  { intros k E. rewrite find_keyed by exact Hk'.
    rewrite find_stored_under.
    replace (stored_under k (sdk_root_list st'))
      with (stored_under (canonical_key (d_name (snd ent))) (sdk_root_list st')).
    - rewrite Hs; reflexivity.
    - unfold stored_under; apply filter_ext.
      intros r; symmetry; apply same_key_equal_keys, E. }
  split; apply main_default_sdk_found, F; auto using strcmp_refl.
Qed.

End DefaultAndText.

Lemma default_sdk_is_in_the_list_witness :
  exists d st',
    main_default_sdk (Some "palmos10") false state_3_10_9 = Returned (d, st') /\
    d = Some (stored_sdk "/opt/palmdev/sdk-10" "10").
Proof.
  destruct (default_sdk_is_in_the_list (Some "palmos10") false state_3_10_9
              eq_refl) as (d & st' & Hm & _).
  exists d, st'; split; [exact Hm|].
  vm_compute in Hm. injection Hm as <- _. reflexivity.
Defined.

Lemma requested_name_selects_stored_root_witness :
  exists st',
    main_scan host_3_4 [] false initial_state = Returned st' /\
    main_default_sdk (Some "3.0") false st' =
      Returned (Some (sdk_root_of host_3_4 ("/opt/palmdev", Build_dirent "sdk-3")),
                st').
Proof.
  destruct (requested_name_selects_stored_root host_3_4 false []
              [("/opt/palmdev", Build_dirent "sdk-4")] []
              ("/opt/palmdev", Build_dirent "sdk-3") "3.0")
    as (st' & Hm & Hd & _).
  - reflexivity.
  - reflexivity.
  - reflexivity.
  - intros ent' [<-|[]]; vm_compute; discriminate.
  - reflexivity.
  - exists st'; auto.
Defined.

(** ** More on the generated text *)

Section Text.

Variable h : host.

Lemma escaped_head_not_space (s : string) (d : ascii) (r : string) :
  escaped s = String d r -> isspace d = false.
Proof.
  destruct s as [|c s]; cbn [escaped]; [discriminate|].
  destruct (isspace c) eqn:Ec; cbn [append]; intros E; injection E as <- _;
    [reflexivity | exact Ec].
Qed.

Lemma escaped_guarded (s : string) :
  forall b, spaces_guarded b (escaped s) = true.
Proof.
  induction s as [|c s IH]; intros b; cbn [escaped]; [reflexivity|].
  destruct (isspace c) eqn:Ec; cbn [append spaces_guarded].
  - rewrite IH, orb_true_r, andb_true_r. reflexivity.
  - rewrite Ec, IH. reflexivity.
Qed.

Lemma unescaped_escaped (s : string) : unescaped (escaped s) = s.
Proof.
  induction s as [|c s IH]; cbn [escaped]; [reflexivity|].
  destruct (isspace c) eqn:Ec; cbn [append].
  - cbn [unescaped]. rewrite Ascii.eqb_refl, Ec; cbn [andb].
    now rewrite IH.
  - cbn [unescaped].
    destruct (escaped s) as [|d r] eqn:Es.
    + destruct s as [|c' s']; [reflexivity|].
      cbn [escaped] in Es; destruct (isspace c'); discriminate.
    + rewrite (escaped_head_not_space s d r Es), andb_false_r.
      now rewrite IH.
Qed.

(** Writing a directory with its spaces escaped only appends to the
    stream; in what it appends every white-space byte comes right after a
    backslash, and dropping the backslashes that stand before white space
    gives the directory back, so that two directories never give the same
    text. *)
Theorem put_escaped_is_reversible (f : FILE) (s t : string) :
  put_escaped f s = f ++ put_escaped EmptyString s /\
  spaces_guarded false (put_escaped EmptyString s) = true /\
  unescaped (put_escaped EmptyString s) = s /\
  (put_escaped EmptyString s = put_escaped EmptyString t -> s = t).
Proof.
  rewrite !put_escaped_app. cbn [append]. repeat split.
  - apply escaped_guarded.
  - apply unescaped_escaped.
  - intros E. apply (f_equal unescaped) in E.
    now rewrite !unescaped_escaped in E.
Qed.

Lemma write_sdk_specs_any_target (t1 t2 : string) (sdks : list root) :
  forall f,
  write_sdk_specs h f sdks (Some t1) = write_sdk_specs h f sdks (Some t2).
Proof.
  induction sdks as [|r sdks IH]; intros f; cbn [write_sdk_specs]; auto.
  destruct (write_sdk_spec h f r None include) as [f1|]; cbn [bind]; auto.
  change (write_sdk_spec h f1 r (Some t2) lib)
    with (write_sdk_spec h f1 r (Some t1) lib).
  destruct (write_sdk_spec h f1 r (Some t1) lib) as [f2|]; cbn [bind]; auto.
Qed.

Lemma write_generic_roots_any_target (t1 t2 : string) (kind : sub_kind)
    (roots : list root) :
  forall f,
  write_generic_roots h f roots (Some t1) kind =
  write_generic_roots h f roots (Some t2) kind.
Proof.
  induction roots as [|r roots IH]; intros f;
    cbn [write_generic_roots]; [reflexivity | apply IH].
Qed.

(** The name of the target is never looked at: the text of the specs is
    the same for every target, the libraries being always those under
    "m68k-palmos-coff". *)
Theorem write_specs_ignores_target_name (st : state) (f : FILE)
    (t1 t2 : string) (default_sdk : option root) :
  write_specs h st f t1 default_sdk = write_specs h st f t2 default_sdk.
Proof.
  unfold write_specs. rewrite (write_sdk_specs_any_target t1 t2).
  destruct (write_sdk_specs h f (sdk_root_list st) (Some t2)) as [f1|];
    cbn [bind]; auto.
  destruct (write_main_spec h st f1 None default_sdk include) as [f2|];
    cbn [bind]; auto.
  unfold write_main_spec.
  now rewrite (write_generic_roots_any_target t1 t2).
Qed.

Lemma write_specs_app (st : state) (f : FILE) (target : string)
    (default_sdk : option root) :
  all_keyed (sdk_root_list st) = true ->
  match default_sdk with Some d => keyed d | None => true end = true ->
  write_specs h st f target default_sdk =
  Returned (f ++ specs_text h st target default_sdk).
Proof.
  intros Hk Hd; unfold write_specs, specs_text, umbrella_block.
  rewrite (write_sdk_specs_app h target _ f Hk); cbn [bind].
  rewrite (write_main_spec_app h st _ None default_sdk include Hk Hd);
    cbn [bind].
  rewrite (write_main_spec_app h st _ (Some target) default_sdk lib Hk Hd).
  rewrite !append_assoc; reflexivity.
Qed.

Lemma key_of_unkeyed (r : root) :
  keyed r = false -> key_of r = Undefined unset_key.
Proof. unfold keyed, key_of; destruct (key r); [discriminate | auto]. Qed.

Lemma write_sdk_specs_unkeyed (target : option string) (sdks : list root) :
  forall f,
  all_keyed sdks = false ->
  write_sdk_specs h f sdks target = Undefined unset_key.
Proof.
  induction sdks as [|r sdks IH]; intros f Hk; [discriminate|].
  cbn [all_keyed forallb] in Hk; cbn [write_sdk_specs].
  destruct (keyed r) eqn:Er.
  - rewrite (write_sdk_spec_app h f r None include Er); cbn [bind].
    rewrite (write_sdk_spec_app h _ r target lib Er); cbn [bind].
    apply IH, Hk.
  - unfold write_sdk_spec. rewrite (key_of_unkeyed r Er); reflexivity.
Qed.

(** [write_specs] returns exactly when every root of the SDK list, and the
    default SDK if there is one, has its key; it then appends to the
    stream, in this order, the two named blocks of each SDK root, the
    umbrella block of the headers and the umbrella block of the
    libraries.  Otherwise it reads a key that was never assigned. *)
Theorem write_specs_layout (st : state) (f : FILE) (target : string)
    (default_sdk : option root) :
  (all_keyed (sdk_root_list st)
   && match default_sdk with Some d => keyed d | None => true end = true ->
   write_specs h st f target default_sdk =
   Returned
     (f ++ concat_all (map (sdk_blocks h target) (sdk_root_list st))
      ++ umbrella_block h st None default_sdk include
      ++ umbrella_block h st (Some target) default_sdk lib)) /\
  (all_keyed (sdk_root_list st)
   && match default_sdk with Some d => keyed d | None => true end = false ->
   write_specs h st f target default_sdk = Undefined unset_key).
Proof.
  split; intros H.
  - apply andb_true_iff in H; destruct H as [Hk Hd].
    apply write_specs_app; assumption.
  - unfold write_specs.
    destruct (all_keyed (sdk_root_list st)) eqn:Hk.
    + cbn [andb] in H.
      rewrite (write_sdk_specs_app h target _ f Hk); cbn [bind].
      unfold write_main_spec.
      rewrite write_generic_roots_app, write_sdk_refs_app by exact Hk.
      cbn [bind]. destruct default_sdk as [d|]; [|discriminate].
      rewrite (key_of_unkeyed d H); reflexivity.
    + rewrite write_sdk_specs_unkeyed by exact Hk. reflexivity.
Qed.


End Text.

Lemma write_specs_layout_witness :
  (exists out,
     write_specs host_3_4 state_3_4 EmptyString "m68k-palmos"
       (Some (stored_sdk "/opt/palmdev/sdk-4" "4")) = Returned out) /\
  write_specs host_3_4 state_3_4 EmptyString "m68k-palmos"
    (Some (root_of host_3_4 "/opt/palmdev")) = Undefined unset_key.
Proof.
  destruct (write_specs_layout host_3_4 state_3_4 EmptyString "m68k-palmos"
              (Some (stored_sdk "/opt/palmdev/sdk-4" "4"))) as [Hr _].
  destruct (write_specs_layout host_3_4 state_3_4 EmptyString "m68k-palmos"
              (Some (root_of host_3_4 "/opt/palmdev"))) as [_ Hu].
  split.
  - eexists; apply Hr; reflexivity.
  - apply Hu; reflexivity.
Defined.


(** ** The specs files *)

Section SpecsFiles.

Variable h : host.
Variable c : config.
Variable sys : system.

Lemma lookup_delete_same (fname : string) (fs : files) :
  lookup fname (delete_file fname fs) = None.
Proof.
  unfold delete_file; induction fs as [|[q a] fs IH]; simpl; auto.
  destruct (String.eqb fname q) eqn:E; simpl; auto. now rewrite E.
Qed.

Lemma lookup_delete_other (fname g : string) (fs : files) :
  g <> fname -> lookup g (delete_file fname fs) = lookup g fs.
Proof.
  intros Hne; unfold delete_file; induction fs as [|[q a] fs IH]; simpl; auto.
  destruct (String.eqb fname q) eqn:E; simpl.
  - apply String.eqb_eq in E; subst q.
    destruct (String.eqb_spec g fname); [contradiction | exact IH].
  - destruct (String.eqb g q); auto.
Qed.

Lemma lookup_put_same (fname text : string) (fs : files) :
  lookup fname (put_file fname text fs) = Some text.
Proof. unfold put_file; simpl. now rewrite String.eqb_refl. Qed.

Lemma lookup_put_other (fname g text : string) (fs : files) :
  g <> fname -> lookup g (put_file fname text fs) = lookup g fs.
Proof.
  intros Hne; unfold put_file; simpl.
  destruct (String.eqb_spec g fname); [contradiction|].
  apply lookup_delete_other, Hne.
Qed.

Lemma specfilename_fits (target : string) :
  fits h (specfile c target) = true ->
  specfilename h c target = Returned (specfile c target).
Proof.
  unfold fits, specfilename, specfile; intros H. apply Nat.ltb_lt in H.
  destruct (Nat.leb_spec (FILENAME_MAX h)
              (String.length (STANDARD_EXEC_PREFIX c ++ "/" ++ target ++ "/specs")));
    [lia | reflexivity].
Qed.

Lemma remove_file_gone (verbose : bool) (fname : string) (w : world) :
  remove_fails sys fname = false ->
  lookup fname (disk (remove_file sys verbose fname w)) = None.
Proof.
  intros R; unfold remove_file.
  destruct (lookup fname (disk w)) eqn:E; auto. rewrite R.
  destruct verbose; cbn [disk with_disk with_program];
    apply lookup_delete_same.
Qed.

Lemma remove_file_others (verbose : bool) (fname g : string) (w : world) :
  g <> fname ->
  lookup g (disk (remove_file sys verbose fname w)) = lookup g (disk w).
Proof.
  intros Hne; unfold remove_file.
  destruct (lookup fname (disk w)); auto.
  destruct (remove_fails sys fname); auto.
  destruct verbose; cbn [disk with_disk with_program];
    apply lookup_delete_other, Hne.
Qed.

(** [remove_file] passes over a file that is not there without a word.  A
    file that is there is either removed, with one line printed when
    verbose, or, when the system refuses, kept with one warning.  No other
    file changes, and once a file has been removed the call again does
    nothing. *)
Theorem remove_file_effect (verbose : bool) (fname : string) (w : world) :
  (lookup fname (disk w) = None -> remove_file sys verbose fname w = w) /\
  (lookup fname (disk w) <> None -> remove_fails sys fname = false ->
   lookup fname (disk (remove_file sys verbose fname w)) = None /\
   warnings (program (remove_file sys verbose fname w)) = warnings (program w) /\
   stdout (program (remove_file sys verbose fname w)) =
     stdout (program w)
     ++ (if verbose then "Removed '" ++ fname ++ "'" ++ NL else EmptyString) /\
   remove_file sys verbose fname (remove_file sys verbose fname w) =
     remove_file sys verbose fname w) /\
  (lookup fname (disk w) <> None -> remove_fails sys fname = true ->
   disk (remove_file sys verbose fname w) = disk w /\
   stdout (program (remove_file sys verbose fname w)) = stdout (program w) /\
   warnings (program (remove_file sys verbose fname w)) =
     (warnings (program w)
      ++ [("can't remove '" ++ fname ++ "': @P")%string])%list) /\
  (forall g, g <> fname ->
     lookup g (disk (remove_file sys verbose fname w)) = lookup g (disk w)).
Proof.
  split; [|split; [|split]].
  - intros E; unfold remove_file; now rewrite E.
  - intros E R.
    pose proof (remove_file_gone verbose fname w R) as G.
    split; [exact G|].
    assert (X : remove_file sys verbose fname (remove_file sys verbose fname w)
                = remove_file sys verbose fname w)
      by (unfold remove_file at 1; now rewrite G).
    unfold remove_file in *.
    destruct (lookup fname (disk w)); [|congruence]. rewrite R in *.
    destruct verbose; cbn [program with_program with_disk warnings stdout printf];
      repeat split; auto. now rewrite append_empty_r.
  - intros E R; unfold remove_file.
    destruct (lookup fname (disk w)); [|congruence]. rewrite R.
    repeat split.
  - intros g; apply remove_file_others.
Qed.

(** *** Writing the files *)

Lemma main_generate_prelude (name : option string) (report : bool)
    (args : list string) :
  paths_fit h args = true ->
  exists st1 d st2,
    main_scan h args report initial_state = Returned st1 /\
    main_default_sdk name report st1 = Returned (d, st2) /\
    generic_root_list st2 = generic_root_list st1 /\
    sdk_root_list st2 = sdk_root_list st1 /\
    all_keyed (sdk_root_list st2) = true /\
    match d with Some r => keyed r | None => true end = true /\
    (report = false -> stdout st2 = EmptyString).
Proof.
  intros Hfit.
  destruct (main_scan_discovers h report args initial_state [] tracks_initial Hfit)
    as (st1 & Hm & _ & Hl & Hk).
  assert (Hk1 : all_keyed (sdk_root_list st1) = true)
    by (rewrite Hl, all_keyed_rev; exact Hk).
  destruct (main_default_sdk_effects name report st1 Hk1)
    as (d & st2 & Hd & Hg2 & Hl2 & Hs2 & Hin).
  exists st1, d, st2; repeat split; auto; try congruence.
  - destruct d; tauto.
  - intros R. rewrite (Hs2 R).
    destruct (main_scan_frame h report args initial_state st1 Hm) as [_ S1].
    exact (S1 R).
Qed.

Lemma specs_text_lists (st1 st2 : state) (t1 t2 : string) (d : option root) :
  generic_root_list st2 = generic_root_list st1 ->
  sdk_root_list st2 = sdk_root_list st1 ->
  specs_text h st2 t2 d = specs_text h st1 t1 d.
Proof.
  intros G L; unfold specs_text, umbrella_block. rewrite G, L. reflexivity.
Qed.

(** The files mode of [main_generate], step by step. *)
Lemma main_generate_files (name : option string) (report verbose : bool)
    (args : list string) (fs : files) :
  paths_fit h args = true ->
  fits h (specfile c (TARGET_ALIAS c)) = true ->
  exists st1 d st2,
    main_scan h args report initial_state = Returned st1 /\
    main_default_sdk name report st1 = Returned (d, st2) /\
    generic_root_list st2 = generic_root_list st1 /\
    sdk_root_list st2 = sdk_root_list st1 /\
    (report = false -> stdout st2 = EmptyString) /\
    (forall t,
       main_generate h c sys name (Some t) report verbose args (world_start fs) =
       Returned
         {| program :=
              {| generic_root_list := generic_root_list st2;
                 sdk_root_list := sdk_root_list st2;
                 stdout := stdout st2 ++ specs_text h st1 (TARGET_ALIAS c) d;
                 warnings := warnings st2 |};
            disk := fs; errors := [] |}) /\
    let st3 :=
      if report
      then printf ("Writing SDK details to target specs files..." ++ NL) st2
      else st2 in
    main_generate h c sys name None report verbose args (world_start fs) =
    match fopen_errno sys (specfile c (TARGET_ALIAS c)) with
    | None =>
        let st4 :=
          if verbose
          then printf ("Wrote " ++ TARGET_ALIAS c ++ " specs to '"
                       ++ specfile c (TARGET_ALIAS c) ++ "'" ++ NL) st3
          else st3 in
        Returned
          {| program := if report then printf ("...done" ++ NL) st4 else st4;
             disk := put_file (specfile c (TARGET_ALIAS c))
                       (specs_text h st1 (TARGET_ALIAS c) d) fs;
             errors := [] |}
    | Some errno =>
        Returned
          {| program :=
               if report
               then printf ((if (errno =? EACCES sys)%Z
                             then permission_message else "...done") ++ NL) st3
               else st3;
             disk := fs;
             errors := [("can't write to '" ++ specfile c (TARGET_ALIAS c)
                         ++ "': @P")%string] |}
    end.
Proof.
  intros Hfit Hname.
  destruct (main_generate_prelude name report args Hfit)
    as (st1 & d & st2 & Hm & Hd & Hg & Hl & Hk & Hkd & Hq).
  exists st1, d, st2. do 5 (split; [assumption|]).
  unfold main_generate, world_start; cbn [program].
  rewrite Hm; cbn [bind]. rewrite Hd; cbn [bind]. split.
  - intros t. rewrite (write_specs_app h st2 _ t d Hk Hkd); cbn [bind].
    rewrite (specs_text_lists st1 st2 (TARGET_ALIAS c) t d Hg Hl).
    reflexivity.
  - cbv zeta. unfold target_list; cbn [main_write].
    rewrite (specfilename_fits _ Hname); cbn [bind].
    destruct (fopen_errno sys (specfile c (TARGET_ALIAS c))) as [errno|].
    + destruct report; cbn [bind]; reflexivity.
    + assert (W : forall st3,
                generic_root_list st3 = generic_root_list st2 ->
                sdk_root_list st3 = sdk_root_list st2 ->
                write_specs h st3 EmptyString (TARGET_ALIAS c) d =
                Returned (specs_text h st1 (TARGET_ALIAS c) d)).
      { intros st3 G3 L3.
        rewrite write_specs_app; auto; [|congruence].
        cbn [append]. f_equal. apply specs_text_lists; congruence. }
      destruct report; cbn [with_program program];
        rewrite W by reflexivity; cbn [bind];
        destruct verbose; reflexivity.
Qed.

(** The specs file holds the text that --dump-specs prints: when the
    file of the target can be opened, the run that writes files leaves in
    it exactly the text that the dumping run, whatever its target, prints
    after its report, touches no other file and records no error. *)
Theorem specs_file_holds_the_dumped_text (name : option string)
    (report verbose : bool) (args : list string) (fs : files) (t : string) :
  paths_fit h args = true ->
  fits h (specfile c (TARGET_ALIAS c)) = true ->
  fopen_errno sys (specfile c (TARGET_ALIAS c)) = None ->
  exists wf wd shown text,
    main_generate h c sys name None report verbose args (world_start fs) =
      Returned wf /\
    main_generate h c sys name (Some t) report verbose args (world_start fs) =
      Returned wd /\
    lookup (specfile c (TARGET_ALIAS c)) (disk wf) = Some text /\
    stdout (program wd) = shown ++ text /\
    (report = false -> shown = EmptyString) /\
    (forall g, g <> specfile c (TARGET_ALIAS c) ->
       lookup g (disk wf) = lookup g fs) /\
    errors wf = [] /\
    disk wd = fs.
Proof.
  intros Hfit Hname Hopen.
  destruct (main_generate_files name report verbose args fs Hfit Hname)
    as (st1 & d & st2 & _ & _ & _ & _ & Hq & Hdump & Hfile).
  cbv zeta in Hfile. rewrite Hopen in Hfile.
  do 2 eexists. exists (stdout st2), (specs_text h st1 (TARGET_ALIAS c) d).
  split; [exact Hfile|]. split; [apply Hdump|].
  cbn [disk program stdout errors]. repeat split; auto.
  - apply lookup_put_same.
  - intros g Hg; apply lookup_put_other, Hg.
Qed.

(** When the specs file cannot be opened, no file changes and one error
    is recorded; the closing line of the report is the advice to run as
    root when the error number is EACCES, and "...done" all the same for
    any other error. *)
Theorem refused_specs_file_is_reported (name : option string)
    (verbose : bool) (args : list string) (fs : files) (errno : Z) :
  paths_fit h args = true ->
  fits h (specfile c (TARGET_ALIAS c)) = true ->
  fopen_errno sys (specfile c (TARGET_ALIAS c)) = Some errno ->
  exists wf shown,
    main_generate h c sys name None true verbose args (world_start fs) =
      Returned wf /\
    disk wf = fs /\
    errors wf =
      [("can't write to '" ++ specfile c (TARGET_ALIAS c) ++ "': @P")%string] /\
    stdout (program wf) =
      shown ++ "Writing SDK details to target specs files..." ++ NL
      ++ (if (errno =? EACCES sys)%Z then permission_message else "...done")
      ++ NL.
Proof.
  intros Hfit Hname Hopen.
  destruct (main_generate_files name true verbose args fs Hfit Hname)
    as (st1 & d & st2 & _ & _ & _ & _ & _ & _ & Hfile).
  cbv zeta in Hfile. rewrite Hopen in Hfile.
  eexists. exists (stdout st2). split; [exact Hfile|].
  cbn [disk program stdout errors printf]. repeat split.
  rewrite !append_assoc; reflexivity.
Qed.

Lemma main_remove_target (verbose : bool) (w : world) :
  fits h (specfile c (TARGET_ALIAS c)) = true ->
  main_remove h c sys verbose (target_list c) w =
  Returned (remove_file sys verbose (specfile c (TARGET_ALIAS c)) w).
Proof.
  intros Hname; unfold target_list; cbn [main_remove].
  rewrite (specfilename_fits _ Hname); reflexivity.
Qed.

(** Writing the specs and then running with -r leaves no specs file, and
    every other file as it was before the two runs. *)
Theorem generate_then_remove_leaves_no_specs (name : option string)
    (report verbose verbose' : bool) (args : list string) (fs : files) :
  paths_fit h args = true ->
  fits h (specfile c (TARGET_ALIAS c)) = true ->
  fopen_errno sys (specfile c (TARGET_ALIAS c)) = None ->
  remove_fails sys (specfile c (TARGET_ALIAS c)) = false ->
  exists w1 w2,
    main_generate h c sys name None report verbose args (world_start fs) =
      Returned w1 /\
    lookup (specfile c (TARGET_ALIAS c)) (disk w1) <> None /\
    main_remove h c sys verbose' (target_list c) w1 = Returned w2 /\
    lookup (specfile c (TARGET_ALIAS c)) (disk w2) = None /\
    (forall g, g <> specfile c (TARGET_ALIAS c) ->
       lookup g (disk w2) = lookup g fs) /\
    warnings (program w2) = warnings (program w1) /\
    errors w2 = [].
Proof.
  intros Hfit Hname Hopen Hrm.
  destruct (main_generate_files name report verbose args fs Hfit Hname)
    as (st1 & d & st2 & _ & _ & _ & _ & _ & _ & Hfile).
  cbv zeta in Hfile. rewrite Hopen in Hfile.
  eexists; eexists. split; [exact Hfile|].
  rewrite (main_remove_target verbose' _ Hname).
  split; [cbn [disk]; rewrite lookup_put_same; discriminate|].
  split; [reflexivity|].
  split; [apply remove_file_gone, Hrm|]. split.
  - intros g Hg. rewrite remove_file_others by exact Hg.
    cbn [disk]. apply lookup_put_other, Hg.
  - unfold remove_file; cbn [disk]. rewrite lookup_put_same, Hrm.
    destruct verbose'; split; reflexivity.
Qed.

End SpecsFiles.

Lemma remove_file_effect_witness :
  lookup "/usr/lib/gcc-lib/m68k-palmos/specs"
    (disk (remove_file system_open true "/usr/lib/gcc-lib/m68k-palmos/specs"
             (world_start [("/usr/lib/gcc-lib/m68k-palmos/specs", "*cpp:")])))
  = None.
Proof.
  destruct (remove_file_effect system_open true
              "/usr/lib/gcc-lib/m68k-palmos/specs"
              (world_start [("/usr/lib/gcc-lib/m68k-palmos/specs", "*cpp:")]))
    as (_ & H & _).
  apply H; [discriminate | reflexivity].
Defined.

Lemma specs_file_holds_the_dumped_text_witness :
  exists wf wd shown text,
    main_generate host_one_sdk config_m68k system_open None None false false
      [] (world_start []) = Returned wf /\
    main_generate host_one_sdk config_m68k system_open None (Some "any") false
      false [] (world_start []) = Returned wd /\
    lookup "/usr/lib/gcc-lib/m68k-palmos/specs" (disk wf) = Some text /\
    stdout (program wd) = shown ++ text.
Proof.
  destruct (specs_file_holds_the_dumped_text host_one_sdk config_m68k
              system_open None false false [] [] "any" eq_refl eq_refl eq_refl)
    as (wf & wd & shown & text & H1 & H2 & H3 & H4 & _).
  exists wf, wd, shown, text; auto.
Defined.

Lemma refused_specs_file_is_reported_witness :
  exists wf,
    main_generate host_one_sdk config_m68k system_denied None None true false
      [] (world_start []) = Returned wf /\
    disk wf = [] /\
    errors wf = ["can't write to '/usr/lib/gcc-lib/m68k-palmos/specs': @P"].
Proof.
  destruct (refused_specs_file_is_reported host_one_sdk config_m68k
              system_denied None false [] [] 13%Z eq_refl eq_refl eq_refl)
    as (wf & shown & H1 & H2 & H3 & _).
  exists wf; auto.
Defined.

Lemma generate_then_remove_leaves_no_specs_witness :
  exists w1 w2,
    main_generate host_one_sdk config_m68k system_open None None false false
      [] (world_start []) = Returned w1 /\
    main_remove host_one_sdk config_m68k system_open false
      (target_list config_m68k) w1 = Returned w2 /\
    lookup "/usr/lib/gcc-lib/m68k-palmos/specs" (disk w2) = None.
Proof.
  destruct (generate_then_remove_leaves_no_specs host_one_sdk config_m68k
              system_open None false false false [] []
              eq_refl eq_refl eq_refl eq_refl)
    as (w1 & w2 & H1 & _ & H2 & H3 & _).
  exists w1, w2; auto.
Defined.
